(** * CNTree: a shallow embedding of [cntree.py] and its properties

    The class [CNTree] renders a directory subtree as text.  The embedding
    follows the Python source method by method:

    - a Python [str] is a list of Unicode code points ([list N]), so that
      character offsets ([str.find]) and the box-drawing glyphs are exact;
    - the host file system is a finite tree of directory entries without
      symbolic links, consulted through POSIX [pathlib] operations
      ([is_dir], [is_file], [iterdir], [resolve]);
    - the instance attributes ([self._tree], [self._filter_list], ...) are
      a record that every method threads explicitly, in a small monad of
      state and exceptions;
    - the recursion of [_add_contents] is bounded by the height of the file
      system tree, which is proved to be enough. *)

From Stdlib Require Import ZArith NArith List Bool Lia String Ascii.
From stdpp Require Import base option list sorting gmap.

Local Open Scope Z_scope.

(** ** Python strings *)

Definition char := N.
Abbreviation str := (list N).

(** An ASCII literal as a Python string. *)
Fixpoint lit (s : string) : str :=
  match s with
  | EmptyString => []
  | String a s' => N_of_ascii a :: lit s'
  end.

Module PyStr.

(** [s.startswith(sub)] *)
Fixpoint startswith (sub s : str) : bool :=
  match sub, s with
  | [], _ => true
  | _ :: _, [] => false
  | a :: sub', b :: s' => N.eqb a b && startswith sub' s'
  end.

(** [s.find(sub)]: offset of the first occurrence, or -1. *)
Fixpoint find_from (i : Z) (sub s : str) : Z :=
  if startswith sub s then i
  else match s with
       | [] => -1
       | _ :: s' => find_from (i + 1) sub s'
       end.

Definition find (s sub : str) : Z := find_from 0 sub s.

(** [sub in s] *)
Definition contains (sub s : str) : bool := negb (find s sub =? -1).

(** [s.replace(old, new)]: every non-overlapping occurrence, left to
    right.  [skip] counts the characters of a match still to be dropped. *)
Fixpoint replace_aux (old new : str) (skip : nat) (s : str) : str :=
  match s with
  | [] => []
  | c :: s' =>
      match skip with
      | S k => replace_aux old new k s'
      | O =>
          if startswith old s
          then new ++ replace_aux old new (Nat.pred (length old)) s'
          else c :: replace_aux old new O s'
      end
  end.

Definition replace (s old new : str) : str :=
  match old with
  | [] => new ++ flat_map (fun c => c :: new) s
  | _ :: _ => replace_aux old new O s
  end.

(** [c.isspace()]: the Unicode white space characters. *)
Definition isspace (c : char) : bool :=
  ((9 <=? c) && (c <=? 13) || (28 <=? c) && (c <=? 32)
   || (c =? 133) || (c =? 160) || (c =? 5760)
   || (8192 <=? c) && (c <=? 8202)
   || (c =? 8232) || (c =? 8233) || (c =? 8239) || (c =? 8287)
   || (c =? 12288))%N.

(** [s.lstrip()] *)
Fixpoint lstrip (s : str) : str :=
  match s with
  | [] => []
  | c :: s' => if isspace c then lstrip s' else s
  end.

(** [s.lower()], on the ASCII letters; other characters are kept. *)
Definition lower_char (c : char) : char :=
  (if (65 <=? c) && (c <=? 90) then c + 32 else c)%N.

Definition lower (s : str) : str := map lower_char s.

(** [sep.join(l)] *)
Fixpoint join (sep : str) (l : list str) : str :=
  match l with
  | [] => []
  | [s] => s
  | s :: l' => s ++ sep ++ join sep l'
  end.

(** [' ' * n]; empty when [n] is negative. *)
Definition spaces (n : Z) : str := replicate (Z.to_nat n) 32%N.

(** [a < b] on strings: lexicographic on code points. *)
Fixpoint ltb (a b : str) : bool :=
  match a, b with
  | _, [] => false
  | [], _ :: _ => true
  | x :: a', y :: b' => (x <? y)%N || (x =? y)%N && ltb a' b'
  end.

End PyStr.

(** ** The file system and [pathlib] *)

(** A directory entry: a regular file, a directory with its named entries
    in the order [iterdir] yields them, or anything else (a socket, a
    FIFO, a device), for which both [is_file] and [is_dir] are false. *)
#[local] Unset Elimination Schemes.
Inductive node :=
| File
| Other
| Dir (entries : list (str * node)).
#[local] Set Elimination Schemes.

(** The depth of the deepest chain of directories below a node. *)
Fixpoint height (n : node) : nat :=
  match n with
  | Dir es => S (max_list (map (fun e => height e.2) es))
  | _ => O
  end.

(** The host state: the tree below [/] and the working directory. *)
Record filesys := { fs_root : node; fs_cwd : list str }.

(** A [pathlib.PosixPath]: whether it is anchored at [/], and its parts. *)
Record PosixPath := { absolute : bool; parts : list str }.

Global Instance PosixPath_eq_dec : EqDecision PosixPath.
Proof. solve_decision. Defined.

Module pathlib.

Definition sep : str := lit "/".
Definition pardir : str := lit "..".
Definition curdir : str := lit ".".

(** Split at every [/]. *)
Fixpoint split_sep (cur : str) (s : str) : list str :=
  match s with
  | [] => [rev cur]
  | c :: s' =>
      if (c =? 47)%N then rev cur :: split_sep [] s'
      else split_sep (c :: cur) s'
  end.

(** [pathlib.Path(s)]: empty and [.] components vanish. *)
Definition Path (s : str) : PosixPath :=
  {| absolute := PyStr.startswith sep s;
     parts := filter (fun c => c <> [] /\ c <> curdir) (split_sep [] s) |}.

(** [p / name] *)
Definition joinpath (p : PosixPath) (name : str) : PosixPath :=
  {| absolute := absolute p; parts := parts p ++ [name] |}.

(** [p / q] for a relative [q]. *)
Definition joinrel (p q : PosixPath) : PosixPath :=
  {| absolute := absolute p; parts := parts p ++ parts q |}.

Definition is_absolute (p : PosixPath) : bool := absolute p.

(** [p.name]: the last part, or the empty string. *)
Definition name (p : PosixPath) : str := default [] (last (parts p)).

(** [str(p)] *)
Definition to_str (p : PosixPath) : str :=
  match absolute p, parts p with
  | false, [] => curdir
  | false, ps => PyStr.join sep ps
  | true, ps => sep ++ PyStr.join sep ps
  end.

(** The entry named [nm] of a directory listing. *)
Fixpoint entry (nm : str) (es : list (str * node)) : option node :=
  match es with
  | [] => None
  | (nm', n) :: es' => if decide (nm' = nm) then Some n else entry nm es'
  end.

(** The node at a location given by its components from [/]. *)
Fixpoint subtree (n : node) (loc : list str) : option node :=
  match loc with
  | [] => Some n
  | c :: loc' =>
      match n with
      | Dir es =>
          match entry c es with
          | Some n' => subtree n' loc'
          | None => None
          end
      | _ => None
      end
  end.

Definition is_dir_node (n : option node) : bool :=
  match n with Some (Dir _) => true | _ => false end.

(** Path resolution as the kernel does it: every component is looked up
    in a directory, and [..] goes to the parent ([/] is its own). *)
Fixpoint walk (root : node) (loc : list str) (ps : list str)
  : option (list str) :=
  match ps with
  | [] => Some loc
  | c :: ps' =>
      if is_dir_node (subtree root loc)
      then walk root (if decide (c = pardir) then removelast loc
                      else loc ++ [c]) ps'
      else None
  end.

Definition base (fs : filesys) (p : PosixPath) : list str :=
  if absolute p then [] else fs_cwd fs.

Definition stat (fs : filesys) (p : PosixPath) : option node :=
  loc ← walk (fs_root fs) (base fs p) (parts p);
  subtree (fs_root fs) loc.

Definition is_dir (fs : filesys) (p : PosixPath) : bool :=
  is_dir_node (stat fs p).

Definition is_file (fs : filesys) (p : PosixPath) : bool :=
  match stat fs p with Some File => true | _ => false end.

(** [p.resolve()] (not strict): absolute, with [..] taken lexically,
    which is what [os.path.realpath] does where nothing is a link. *)
Fixpoint normalize (loc : list str) (ps : list str) : list str :=
  match ps with
  | [] => loc
  | c :: ps' =>
      normalize (if decide (c = pardir) then removelast loc
                 else loc ++ [c]) ps'
  end.

Definition resolve (fs : filesys) (p : PosixPath) : PosixPath :=
  {| absolute := true; parts := normalize (base fs p) (parts p) |}.

End pathlib.

(** ** Exceptions, results and the state of an instance *)

Inductive exn :=
| OSError (msg : str)
| FileNotFoundError
| NotADirectoryError
| IndexError
| TypeError
| AttributeError
| OutOfFuel.

(** [except OSError] also catches the subclasses. *)
Definition is_OSError (e : exn) : bool :=
  match e with
  | OSError _ | FileNotFoundError | NotADirectoryError => true
  | IndexError | TypeError | AttributeError | OutOfFuel => false
  end.

Inductive result (A : Type) :=
| Ok (a : A)
| Raise (e : exn).
Arguments Ok {A} a.
Arguments Raise {A} e.

(** The attributes that [__init__] creates. *)
Record CNTree := mkCNTree {
  _start_dir : option PosixPath;
  _filter_list : list PosixPath;
  _dir_format : str;
  _file_format : str;
  _root_lead : str;
  _dir_lead : str;
  _sort_order : gmap N Z;
  _tree : list str
}.

(** A method: from the instance to a result and the instance afterwards. *)
Definition M (A : Type) : Type := CNTree -> result A * CNTree.

Definition ret {A} (a : A) : M A := fun self => (Ok a, self).
Definition raise {A} (e : exn) : M A := fun self => (Raise e, self).
Definition bind {A B} (m : M A) (k : A -> M B) : M B :=
  fun self =>
    match m self with
    | (Ok a, self') => k a self'
    | (Raise e, self') => (Raise e, self')
    end.
Definition get : M CNTree := fun self => (Ok self, self).
Definition modify (f : CNTree -> CNTree) : M unit :=
  fun self => (Ok tt, f self).

Notation "x <~ m ; k" := (bind m (fun x => k))
  (at level 20, m at level 100, k at level 200,
   format "x  <~  m ;  '/' k").
Notation "m ;> k" := (bind m (fun _ => k))
  (at level 100, k at level 200, right associativity).

(** Assignments to the attributes. *)
Definition set_start_dir (v : option PosixPath) (s : CNTree) : CNTree :=
  mkCNTree v (_filter_list s) (_dir_format s) (_file_format s)
           (_root_lead s) (_dir_lead s) (_sort_order s) (_tree s).
Definition set_filter_list (v : list PosixPath) (s : CNTree) : CNTree :=
  mkCNTree (_start_dir s) v (_dir_format s) (_file_format s)
           (_root_lead s) (_dir_lead s) (_sort_order s) (_tree s).
Definition set_dir_format (v : str) (s : CNTree) : CNTree :=
  mkCNTree (_start_dir s) (_filter_list s) v (_file_format s)
           (_root_lead s) (_dir_lead s) (_sort_order s) (_tree s).
Definition set_file_format (v : str) (s : CNTree) : CNTree :=
  mkCNTree (_start_dir s) (_filter_list s) (_dir_format s) v
           (_root_lead s) (_dir_lead s) (_sort_order s) (_tree s).
Definition set_root_lead (v : str) (s : CNTree) : CNTree :=
  mkCNTree (_start_dir s) (_filter_list s) (_dir_format s) (_file_format s)
           v (_dir_lead s) (_sort_order s) (_tree s).
Definition set_dir_lead (v : str) (s : CNTree) : CNTree :=
  mkCNTree (_start_dir s) (_filter_list s) (_dir_format s) (_file_format s)
           (_root_lead s) v (_sort_order s) (_tree s).
Definition set_sort_order (v : gmap N Z) (s : CNTree) : CNTree :=
  mkCNTree (_start_dir s) (_filter_list s) (_dir_format s) (_file_format s)
           (_root_lead s) (_dir_lead s) v (_tree s).
Definition set_tree (v : list str) (s : CNTree) : CNTree :=
  mkCNTree (_start_dir s) (_filter_list s) (_dir_format s) (_file_format s)
           (_root_lead s) (_dir_lead s) (_sort_order s) v.

(** [self._tree.append(line)] *)
Definition tree_append (line : str) : M unit :=
  modify (fun s => set_tree (_tree s ++ [line]) s).

(** [for index, x in enumerate(l): body] *)
Fixpoint for_enumerate {A} (body : Z -> A -> M unit) (index : Z)
    (l : list A) : M unit :=
  match l with
  | [] => ret tt
  | x :: l' => body index x ;> for_enumerate body (index + 1) l'
  end.

(** ** [list.sort(key=...)] *)

(** Python's [<] on the types used as sort keys. *)
Class PyOrd (K : Type) := py_lt : K -> K -> bool.
Global Instance PyOrd_str : PyOrd str := PyStr.ltb.
Global Instance PyOrd_int : PyOrd Z := Z.ltb.
Global Instance PyOrd_bool : PyOrd bool := fun a b => negb a && b.

(** The keys are computed first, one call per element and in order; the
    sort is stable: an element moves before another only if its key is
    strictly smaller. *)
Fixpoint insert_by {K A} `{PyOrd K} (x : K * A) (l : list (K * A))
    : list (K * A) :=
  match l with
  | [] => [x]
  | y :: l' => if py_lt y.1 x.1 then y :: insert_by x l' else x :: l
  end.

Fixpoint sort_decorated {K A} `{PyOrd K} (l : list (K * A))
    : list (K * A) :=
  match l with
  | [] => []
  | x :: l' => insert_by x (sort_decorated l')
  end.

Fixpoint mapM {A B} (f : A -> M B) (l : list A) : M (list B) :=
  match l with
  | [] => ret []
  | x :: l' => y <~ f x; ys <~ mapM f l'; ret (y :: ys)
  end.

Definition list_sort {K A} `{PyOrd K} (key : A -> M K) (l : list A)
    : M (list A) :=
  keys <~ mapM key l;
  ret (map snd (sort_decorated (zip keys l))).

(** ** The class [CNTree] *)

Module CNTree.

(** *** Class constants *)
Definition CHAR_VERT : char := 9474%N.   (* U+2502 *)
Definition CHAR_HORZ : char := 9472%N.   (* U+2500 *)
Definition CHAR_TEE : char := 9500%N.    (* U+251C *)
Definition CHAR_ELL : char := 9492%N.    (* U+2514 *)
Definition CHAR_SPACE : char := 32%N.

Definition PREFIX_VERT : str := [CHAR_VERT; CHAR_SPACE].
Definition PREFIX_NONE : str := [CHAR_SPACE; CHAR_SPACE].
Definition CONNECTOR_TEE : str := [CHAR_TEE; CHAR_HORZ].
Definition CONNECTOR_ELL : str := [CHAR_ELL; CHAR_HORZ].

Definition FORMAT_NAME : str := lit "$NAME".
Definition FORMAT_DIR : str := lit " " ++ FORMAT_NAME ++ pathlib.sep.
Definition FORMAT_FILE : str := lit " " ++ FORMAT_NAME.

(** ['"{}" is not a directory'.format(start_dir)] *)
Definition ERR_NOT_A_DIR (start_dir : option str) : str :=
  [34%N] ++ default (lit "None") start_dir ++ [34%N]
         ++ lit " is not a directory".

Definition SORT_ORDER : str := lit "_.".

(** *** [__init__] *)
Definition __init__ : CNTree :=
  mkCNTree None [] FORMAT_DIR FORMAT_FILE [] [] ∅ [].

Section Methods.

(** The file system the process runs on. *)
Variable fs : filesys.

(** [item.iterdir()] *)
Definition iterdir (item : PosixPath) : M (list PosixPath) :=
  match pathlib.stat fs item with
  | Some (Dir es) => ret (map (fun e => pathlib.joinpath item e.1) es)
  | Some _ => raise NotADirectoryError
  | None => raise FileNotFoundError
  end.

Definition _sanitize_start_dir (start_dir : option str) : M unit :=
  match start_dir with
  | None => raise (OSError [])
  | Some s =>
      modify (set_start_dir (Some (pathlib.Path s))) ;>
      self <~ get;
      match _start_dir self with
      | None => raise AttributeError
      | Some p =>
          if negb (pathlib.is_dir fs p) then raise (OSError [])
          else modify (set_start_dir (Some (pathlib.resolve fs p)))
      end
  end.

Definition sanitize_item (start : PosixPath) (item : PosixPath)
    : PosixPath :=
  pathlib.resolve fs
    (if negb (pathlib.is_absolute item) then pathlib.joinrel start item
     else item).

Definition _sanitize_filter_list (filter_list : list str) : M unit :=
  self <~ get;
  match _start_dir self with
  | None => raise TypeError
  | Some start =>
      let filter_list := map pathlib.Path filter_list in
      let filter_list := map (sanitize_item start) filter_list in
      modify (set_filter_list filter_list)
  end.

(** The truth value of [fmt and FORMAT_NAME in fmt]. *)
Definition format_ok (fmt : option str) : bool :=
  match fmt with
  | None => false
  | Some [] => false
  | Some f => PyStr.contains FORMAT_NAME f
  end.

Definition _sanitize_formats (dir_format file_format : option str)
    : M unit :=
  (if format_ok dir_format
   then modify (set_dir_format (default [] dir_format))
   else ret tt) ;>
  (if format_ok file_format
   then modify (set_file_format (default [] file_format))
   else ret tt).

Definition _get_leads : M unit :=
  self <~ get;
  let root_fmt := PyStr.lstrip (_dir_format self) in
  let root_lead_count := PyStr.find root_fmt FORMAT_NAME in
  modify (set_root_lead (PyStr.spaces root_lead_count)) ;>
  self <~ get;
  let dir_lead_count := PyStr.find (_dir_format self) FORMAT_NAME in
  modify (set_dir_lead (PyStr.spaces dir_lead_count)).

Definition _get_sort_order : M unit :=
  let sort_len := Z.of_nat (length SORT_ORDER) in
  for_enumerate
    (fun index c =>
       modify (fun s =>
         set_sort_order (<[c := index - sort_len]> (_sort_order s)) s))
    0 SORT_ORDER.

Definition _add_root : M unit :=
  self <~ get;
  match _start_dir self with
  | None => raise AttributeError
  | Some start =>
      let fmt_root := PyStr.lstrip (_dir_format self) in
      let rep_name :=
        PyStr.replace fmt_root FORMAT_NAME (pathlib.name start) in
      tree_append rep_name
  end.

Definition _do_sort (item : PosixPath) : M Z :=
  self <~ get;
  match pathlib.name item with
  | [] => raise IndexError
  | c :: _ =>
      let pos := default (Z.of_N c) (_sort_order self !! c) in
      ret pos
  end.

Definition _add_dir (_add_contents : PosixPath -> str -> M unit)
    (item : PosixPath) (prefix : str) (count index : Z) : M unit :=
  let prefix :=
    prefix ++ (if index <? count - 1 then PREFIX_VERT
               else PREFIX_NONE) in
  self <~ get;
  let prefix := prefix ++ _dir_lead self in
  _add_contents item prefix.

Fixpoint _add_contents (fuel : nat) (item : PosixPath) (prefix : str)
    : M unit :=
  match fuel with
  | O => raise OutOfFuel
  | S fuel' =>
      items <~ iterdir item;
      items <~ list_sort
                  (fun item => ret (PyStr.lower (pathlib.to_str item)))
                  items;
      items <~ list_sort _do_sort items;
      items <~ list_sort (fun item => ret (pathlib.is_file fs item))
                  items;
      self <~ get;
      let items :=
        filter (fun item => item ∉ _filter_list self) items in
      let count := Z.of_nat (length items) in
      for_enumerate
        (fun index item =>
           let connector :=
             if index <? count - 1 then CONNECTOR_TEE
             else CONNECTOR_ELL in
           self <~ get;
           let fmt := if pathlib.is_dir fs item then _dir_format self
                      else _file_format self in
           let rep_name :=
             PyStr.replace fmt FORMAT_NAME (pathlib.name item) in
           tree_append (_root_lead self ++ prefix ++ connector
                          ++ rep_name) ;>
           if pathlib.is_dir fs item
           then _add_dir (_add_contents fuel') item prefix count index
           else ret tt)
        0 items
  end.

Definition _get_result : M str :=
  self <~ get;
  let str_out := PyStr.join (lit "
") (_tree self) in
      ret str_out.

(** [try: m except OSError as exception: raise OSError(msg) from
    exception] *)
Definition reraise_OSError {A} (m : M A) (msg : str) : M A :=
  fun self =>
    match m self with
    | (Raise e, self') =>
        (Raise (if is_OSError e then OSError msg else e), self')
    | r => r
    end.

(** The directories nest no deeper than the file system is high, so
    this many nested calls of [_add_contents] always suffice. *)
Definition recursion_bound : nat := height (fs_root fs).

Definition build_tree (start_dir : option str)
    (filter_list : option (list str))
    (dir_format file_format : option str) : M str :=
  let filter_list := default [] filter_list in
  modify (set_start_dir None) ;>
  modify (set_filter_list []) ;>
  modify (set_dir_format FORMAT_DIR) ;>
  modify (set_file_format FORMAT_FILE) ;>
  modify (set_root_lead []) ;>
  modify (set_dir_lead []) ;>
  modify (set_sort_order ∅) ;>
  modify (set_tree []) ;>
  reraise_OSError (_sanitize_start_dir start_dir)
                  (ERR_NOT_A_DIR start_dir) ;>
  _sanitize_filter_list filter_list ;>
  _sanitize_formats dir_format file_format ;>
  _get_leads ;>
  _get_sort_order ;>
  _add_root ;>
  self <~ get;
  match _start_dir self with
  | None => raise AttributeError
  | Some start => _add_contents recursion_bound start []
  end ;>
  _get_result.

End Methods.
End CNTree.

(** ** The end-to-end scenario *)

Module Scenario.
Import CNTree.

(** [/R] holds the directory [A], which holds [x.txt], and the file
    [b.txt]; the process runs in [/]. *)
Definition fs : filesys :=
  {| fs_root :=
       Dir [(lit "R", Dir [(lit "b.txt", File);
                           (lit "A", Dir [(lit "x.txt", File)])])];
     fs_cwd := [] |}.

Definition expected : str :=
  lit "R/" ++ [10%N]
  ++ CONNECTOR_TEE ++ lit " A/" ++ [10%N]
  ++ PREFIX_VERT ++ lit " " ++ CONNECTOR_ELL ++ lit " x.txt" ++ [10%N]
  ++ CONNECTOR_ELL ++ lit " b.txt".

End Scenario.


(** * The tree as a function of the directory entries

    What [_add_contents] appends, written as a function that returns the
    lines (the functional form of the traversal); the methods are proved
    to compute it. *)

(** The laws of a strict total order, which [<] obeys on [str], [int] and
    [bool]. *)
Class PyOrdLaws (K : Type) `{PyOrd K} := {
  py_lt_irrefl : forall a : K, py_lt a a = false;
  py_lt_trans : forall a b c : K,
    py_lt a b = true -> py_lt b c = true -> py_lt a c = true;
  py_lt_connex : forall a b : K,
    py_lt a b = false -> py_lt b a = false -> a = b
}.

(** The sort with the keys computed on the fly. *)
Fixpoint insert_key {K A} `{PyOrd K} (key : A -> K) (x : A) (l : list A)
    : list A :=
  match l with
  | [] => [x]
  | y :: l' =>
      if py_lt (key y) (key x) then y :: insert_key key x l' else x :: l
  end.

Fixpoint sort_key {K A} `{PyOrd K} (key : A -> K) (l : list A) : list A :=
  match l with
  | [] => []
  | x :: l' => insert_key key x (sort_key key l')
  end.

(** The order after the sort: first the key, then the order before. *)
Definition then_by {K A} `{PyOrd K} (key : A -> K) (R : relation A)
    : relation A :=
  fun a b => py_lt (key a) (key b) = true \/ (key a = key b /\ R a b).

(** [a] may stay before [b] in a list sorted by [key]. *)
Definition key_le {K A} `{PyOrd K} (key : A -> K) (a b : A) : Prop :=
  py_lt (key b) (key a) = false.

(** The absolute path with the given parts. *)
Definition mkabs (loc : list str) : PosixPath :=
  {| absolute := true; parts := loc |}.

(** The path of the entry [nm] of the directory at [loc]. *)
Definition child (loc : list str) (nm : str) : PosixPath :=
  mkabs (loc ++ [nm]).

(** The names a directory listing can hold: not empty, not [.] and not
    [..], all the way down. *)
Fixpoint wf_node (n : node) : bool :=
  match n with
  | Dir es =>
      forallb (fun e => negb (bool_decide (e.1 = []))
                        && negb (bool_decide (e.1 = pathlib.curdir))
                        && negb (bool_decide (e.1 = pathlib.pardir))
                        && wf_node e.2) es
  | _ => true
  end.

Definition is_file_node (n : option node) : bool :=
  match n with Some File => true | _ => false end.

Module Model.
Import CNTree.

(** The key of the second sort, on a name. *)
Definition rank (so : gmap N Z) (nm : str) : Z :=
  match nm with
  | [] => 0
  | c :: _ => default (Z.of_N c) (so !! c)
  end.

(** The names of a directory after the three sorts. *)
Definition ordered (so : gmap N Z) (es : list (str * node)) : list str :=
  sort_key (fun nm => is_file_node (pathlib.entry nm es))
    (sort_key (rank so)
       (sort_key PyStr.lower (map fst es))).

(** The names that are left once the filtered paths are removed. *)
Definition survivors (self : CNTree) (loc : list str)
    (es : list (str * node)) : list str :=
  filter (fun nm => mkabs (loc ++ [nm]) ∉ _filter_list self)
         (ordered (_sort_order self) es).

Definition connector (index count : Z) : str :=
  if index <? count - 1 then CONNECTOR_TEE else CONNECTOR_ELL.

Definition segment (index count : Z) : str :=
  if index <? count - 1 then PREFIX_VERT else PREFIX_NONE.

(** The format of an entry with its name filled in. *)
Definition rep_name (self : CNTree) (es : list (str * node)) (nm : str)
    : str :=
  PyStr.replace (if pathlib.is_dir_node (pathlib.entry nm es)
                 then _dir_format self else _file_format self)
                FORMAT_NAME nm.

(** [enumerate(l)], counting from [index]. *)
Fixpoint enumerate {A} (index : Z) (l : list A) : list (Z * A) :=
  match l with
  | [] => []
  | x :: l' => (index, x) :: enumerate (index + 1) l'
  end.

(** The lines below the directory at [loc] with the entries [es]. *)
Fixpoint lines (fuel : nat) (self : CNTree) (loc : list str)
    (es : list (str * node)) (prefix : str) : list str :=
  match fuel with
  | O => []
  | S fuel' =>
      let items := survivors self loc es in
      let count := Z.of_nat (length items) in
      flat_map
        (fun e =>
           (_root_lead self ++ prefix ++ connector e.1 count
              ++ rep_name self es e.2)
           :: match pathlib.entry e.2 es with
              | Some (Dir es') =>
                  lines fuel' self (loc ++ [e.2]) es'
                        (prefix ++ segment e.1 count ++ _dir_lead self)
              | _ => []
              end)
        (enumerate 0 items)
  end.

(** The root's line. *)
Definition root_line (self : CNTree) (loc : list str) : str :=
  PyStr.replace (PyStr.lstrip (_dir_format self)) FORMAT_NAME
                (pathlib.name (mkabs loc)).

(** The formats in effect for the given parameters. *)
Definition effective_dir (dir_format : option str) : str :=
  if format_ok dir_format then default [] dir_format else FORMAT_DIR.

Definition effective_file (file_format : option str) : str :=
  if format_ok file_format then default [] file_format else FORMAT_FILE.

(** The table that [_get_sort_order] builds. *)
Definition sort_table : gmap N Z := <[46%N := -1]> (<[95%N := -2]> ∅).

(** The instance once the parameters are sanitized and the leads and the
    sort table are set, before the first line is added. *)
Definition configured (fs : filesys) (start : PosixPath)
    (filter_list : list str) (dir_format file_format : option str)
    : CNTree :=
  let fmt := effective_dir dir_format in
  mkCNTree (Some start)
           (map (fun s => sanitize_item fs start (pathlib.Path s))
                filter_list)
           fmt (effective_file file_format)
           (PyStr.spaces (PyStr.find (PyStr.lstrip fmt) FORMAT_NAME))
           (PyStr.spaces (PyStr.find fmt FORMAT_NAME))
           sort_table [].

(** The directory entries with the filtered paths taken out, at every
    depth. *)
Fixpoint prune (flt : list PosixPath) (loc : list str) (n : node) : node :=
  match n with
  | Dir es =>
      Dir (filter (fun e => mkabs (loc ++ [e.1]) ∉ flt)
             (map (fun e => (e.1, prune flt (loc ++ [e.1]) e.2)) es))
  | _ => n
  end.

(** The format the specification selects: the caller's if it is not
    empty and holds the placeholder, the built-in one otherwise. *)
Definition chosen_format (builtin : str) (fmt : option str) : str :=
  match fmt with
  | Some f =>
      if bool_decide (f <> []) && PyStr.contains FORMAT_NAME f then f
      else builtin
  | None => builtin
  end.

(** The rank of a name by its first character, as the specification
    words it: underscore, then dot, then the character's ordinal. *)
Definition spec_rank (nm : str) : Z :=
  match nm with
  | [] => 0
  | c :: _ =>
      if (c =? 95)%N then -2 else if (c =? 46)%N then -1 else Z.of_N c
  end.

(** [a] may come before [b] among the entries [es] of one directory:
    not a file before a non-file; then by rank; then by lowered name. *)
Definition precedes (es : list (str * node)) (a b : str) : Prop :=
  let fa := is_file_node (pathlib.entry a es) in
  let fb := is_file_node (pathlib.entry b es) in
  (fa = false /\ fb = true)
  \/ (fa = fb
      /\ (spec_rank a < spec_rank b
          \/ (spec_rank a = spec_rank b
              /\ PyStr.ltb (PyStr.lower b) (PyStr.lower a) = false))).

(** An emitted entry: for each directory between the root and the entry,
    whether that directory was the last of its surviving siblings; the
    entry's position and the number of surviving siblings; its name and
    the listing it belongs to. *)
Record emitted := mkEmitted {
  e_last : list bool;
  e_index : Z;
  e_count : Z;
  e_name : str;
  e_siblings : list (str * node)
}.

(** The emitted entries below a directory, in the order of emission. *)
Fixpoint trace (fuel : nat) (self : CNTree) (loc : list str)
    (es : list (str * node)) (flags : list bool) : list emitted :=
  match fuel with
  | O => []
  | S fuel' =>
      let items := survivors self loc es in
      let count := Z.of_nat (length items) in
      flat_map
        (fun e =>
           mkEmitted flags e.1 count e.2 es
           :: match pathlib.entry e.2 es with
              | Some (Dir es') =>
                  trace fuel' self (loc ++ [e.2]) es'
                        (flags ++ [negb (e.1 <? count - 1)])
              | _ => []
              end)
        (enumerate 0 items)
  end.

(** The prefix for the given directory ancestors. *)
Definition prefix_of (self : CNTree) (flags : list bool) : str :=
  flat_map (fun last : bool =>
              (if last then PREFIX_NONE else PREFIX_VERT) ++ _dir_lead self)
           flags.

(** The line of an emitted entry. *)
Definition render (self : CNTree) (e : emitted) : str :=
  _root_lead self ++ prefix_of self (e_last e)
    ++ (if e_index e <? e_count e - 1 then CONNECTOR_TEE
        else CONNECTOR_ELL)
    ++ rep_name self (e_siblings e) (e_name e).

(** The name is not filtered in the directory at [loc]. *)
Definition kept (flt : list PosixPath) (loc : list str) (nm : str) : Prop :=
  mkabs (loc ++ [nm]) ∉ flt.

(** The listing of a pruned directory. *)
Definition pruned_entries (flt : list PosixPath) (loc : list str)
    (es : list (str * node)) : list (str * node) :=
  filter (fun e => mkabs (loc ++ [e.1]) ∉ flt)
    (map (fun e => (e.1, prune flt (loc ++ [e.1]) e.2)) es).

End Model.

(** ** File systems for the examples *)

Module Examples.

(** [/R] holds [a.txt], [b.txt] and the directory [Foo], which holds
    [bar.txt]; the process runs in [/R]. *)
Definition fs : filesys :=
  {| fs_root :=
       Dir [(lit "R", Dir [(lit "b.txt", File);
                           (lit "Foo", Dir [(lit "bar.txt", File)]);
                           (lit "a.txt", File)])];
     fs_cwd := [lit "R"] |}.

(** The same with [Foo] taken out. *)
Definition fs_without_Foo : filesys :=
  {| fs_root :=
       Dir [(lit "R", Dir [(lit "b.txt", File); (lit "a.txt", File)])];
     fs_cwd := [lit "R"] |}.

(** [/] holds one empty directory whose name begins with a space. *)
Definition fs_space : filesys :=
  {| fs_root := Dir [(lit " A", Dir [])]; fs_cwd := [] |}.

End Examples.

Module OrderExamples.

(** [/R] holds the files [b.txt] and [_x] and the directory [Zed]. *)
Definition fs : filesys :=
  {| fs_root :=
       Dir [(lit "R", Dir [(lit "b.txt", File); (lit "_x", File);
                           (lit "Zed", Dir [])])];
     fs_cwd := [lit "R"] |}.


End OrderExamples.

(** * The command line: [cntree_cli.py] *)

(** [s.split(c)] for a separator of one character. *)
Fixpoint split_on (c : char) (cur : str) (s : str) : list str :=
  match s with
  | [] => [rev cur]
  | x :: s' =>
      if (x =? c)%N then rev cur :: split_on c [] s'
      else split_on c (x :: cur) s'
  end.

Module cntree_cli.

(** What [parser.parse_args()] returns: the positional [directory] and the
    options [-d], [-f] and [-l], each [None] when not given. *)
Record Namespace := {
  directory : str;
  d : option str;
  f : option str;
  l : option str
}.

(** The filter list built from [args.l]. *)
Definition LIST_FILTER (args : Namespace) : option (list str) :=
  match l args with
  | Some (c :: s) => Some (split_on 44%N [] (c :: s))
  | _ => None
  end.

(** The code after [parse_args]: a new [CNTree], one [build_tree], and the
    tree printed; the result is what is written to the standard output. *)
Definition main (fs : filesys) (args : Namespace) : result str :=
  let tree := CNTree.__init__ in
  match (CNTree.build_tree fs (Some (directory args)) (LIST_FILTER args)
                           (d args) (f args) tree).1 with
  | Ok TREE => Ok (TREE ++ [10%N])
  | Raise e => Raise e
  end.

End cntree_cli.

(** * Measures on the file system *)

(** The number of entries below a node, at every depth. *)
Fixpoint entries_count (n : node) : nat :=
  match n with
  | Dir es => sum_list (map (fun e => S (entries_count e.2)) es)
  | _ => O
  end.

(** No directory lists a name twice. *)
Fixpoint nodup_names (n : node) : bool :=
  match n with
  | Dir es =>
      bool_decide (NoDup (map fst es))
      && forallb (fun e => nodup_names e.2) es
  | _ => true
  end.

(** No name below the node holds the character [c]. *)
Fixpoint names_without (c : char) (n : node) : bool :=
  match n with
  | Dir es =>
      forallb (fun e => bool_decide (c ∉ e.1) && names_without c e.2) es
  | _ => true
  end.

(** * Properties *)

(** ** The monad *)

Lemma bind_Ok {A B} (m : M A) (k : A -> M B) self a self' :
  m self = (Ok a, self') -> bind m k self = k a self'.
Proof. intros E. unfold bind. now rewrite E. Qed.

Lemma bind_Raise {A B} (m : M A) (k : A -> M B) self e self' :
  m self = (Raise e, self') -> bind m k self = (Raise e, self').
Proof. intros E. unfold bind. now rewrite E. Qed.

Lemma set_tree_tree (self : CNTree) : set_tree (_tree self) self = self.
Proof. now destruct self. Qed.

Lemma set_tree_twice t t' (self : CNTree) :
  set_tree t (set_tree t' self) = set_tree t self.
Proof. reflexivity. Qed.

(** ** Stable sorting by key *)


Section Sorting.
Context {K A : Type} `{PyOrd K}.
Variable key : A -> K.

Lemma insert_by_decorate x (l : list A) :
  insert_by (key x, x) (map (fun y => (key y, y)) l)
  = map (fun y => (key y, y)) (insert_key key x l).
Proof.
  induction l as [|y l IH]; simpl; [reflexivity|].
  destruct (py_lt (key y) (key x)); simpl; [now rewrite IH|reflexivity].
Qed.

Lemma sort_decorated_zip (l : list A) :
  map snd (sort_decorated (zip (map key l) l)) = sort_key key l.
Proof.
  assert (E : sort_decorated (zip (map key l) l)
              = map (fun y => (key y, y)) (sort_key key l)).
  { induction l as [|x l IH]; simpl; [reflexivity|].
    rewrite IH. apply insert_by_decorate. }
  rewrite E, map_map. simpl. apply map_id.
Qed.

Lemma insert_key_perm x l : insert_key key x l ≡ₚ x :: l.
Proof.
  induction l as [|y l IH]; simpl; [reflexivity|].
  destruct (py_lt (key y) (key x)); [|reflexivity].
  rewrite IH. apply Permutation_swap.
Qed.

Lemma sort_key_perm l : sort_key key l ≡ₚ l.
Proof.
  induction l as [|x l IH]; simpl; [reflexivity|].
  now rewrite insert_key_perm, IH.
Qed.

Lemma sort_key_elem_of x l : x ∈ sort_key key l <-> x ∈ l.
Proof. now rewrite sort_key_perm. Qed.

Lemma sort_key_subseteq l l' : l ⊆ l' -> sort_key key l ⊆ l'.
Proof. intros Hl x Hx. apply Hl. now apply sort_key_elem_of. Qed.

Lemma sort_key_length l : length (sort_key key l) = length l.
Proof. now rewrite sort_key_perm. Qed.

(** Keys that compare alike sort alike. *)
Lemma insert_key_ext {K'} `{PyOrd K'} (key' : A -> K') x l :
  (forall y, y ∈ l -> py_lt (key y) (key x) = py_lt (key' y) (key' x)) ->
  insert_key key x l = insert_key key' x l.
Proof.
  induction l as [|y l IH]; simpl; intros Hl; [reflexivity|].
  rewrite <- (Hl y) by apply list_elem_of_here.
  destruct (py_lt (key y) (key x)); [|reflexivity].
  f_equal. apply IH. intros z Hz. apply Hl. now apply list_elem_of_further.
Qed.

Lemma sort_key_ext {K'} `{PyOrd K'} (key' : A -> K') l :
  (forall x y, x ∈ l -> y ∈ l ->
               py_lt (key x) (key y) = py_lt (key' x) (key' y)) ->
  sort_key key l = sort_key key' l.
Proof.
  induction l as [|x l IH]; simpl; intros Hl; [reflexivity|].
  rewrite <- IH.
  - apply insert_key_ext. intros y Hy. rewrite sort_key_perm in Hy.
    apply Hl; [now apply list_elem_of_further | apply list_elem_of_here].
  - intros a b Ha Hb. apply Hl; now apply list_elem_of_further.
Qed.


Context `{!PyOrdLaws K}.

Lemma then_by_head (R : relation A) x y :
  py_lt (key y) (key x) = false -> R x y -> then_by key R x y.
Proof.
  intros Hyx Rxy. unfold then_by.
  destruct (py_lt (key x) (key y)) eqn:Hxy; [now left|].
  right. split; [now apply py_lt_connex|assumption].
Qed.

Lemma then_by_step (R : relation A) x y z :
  py_lt (key y) (key x) = false -> R x z ->
  then_by key R y z -> then_by key R x z.
Proof.
  intros Hyx Rxz Hyz. unfold then_by in *.
  destruct (py_lt (key x) (key y)) eqn:Hxy.
  - left. destruct Hyz as [Hlt|[Heq _]].
    + eapply py_lt_trans; eauto.
    + now rewrite <- Heq.
  - pose proof (py_lt_connex _ _ Hxy Hyx) as Heq.
    destruct Hyz as [Hlt|[Heq' _]].
    + left. now rewrite Heq.
    + right. split; [congruence|assumption].
Qed.

Lemma insert_key_sorted (R : relation A) x l :
  Forall (R x) l -> StronglySorted (then_by key R) l ->
  StronglySorted (then_by key R) (insert_key key x l).
Proof.
  induction l as [|y l IH]; simpl; intros HR Hs.
  - repeat constructor.
  - apply Forall_cons in HR as [Rxy HR].
    apply StronglySorted_inv in Hs as [Hs Hy].
    destruct (py_lt (key y) (key x)) eqn:Hyx.
    + constructor; [now apply IH|].
      rewrite insert_key_perm. constructor; [now left|assumption].
    + constructor; [now constructor|].
      constructor; [now apply then_by_head|].
      rewrite Forall_forall in *. intros z Hz.
      apply (then_by_step R x y z); auto.
Qed.

(** Stability: what the list was sorted by before breaks the ties. *)
Lemma sort_key_sorted (R : relation A) l :
  StronglySorted R l -> StronglySorted (then_by key R) (sort_key key l).
Proof.
  induction l as [|x l IH]; simpl; intros Hs; [constructor|].
  apply StronglySorted_inv in Hs as [Hs Hx].
  apply insert_key_sorted; [|now apply IH].
  now rewrite sort_key_perm.
Qed.

End Sorting.

Lemma sort_key_map {K A B} `{PyOrd K} (key : B -> K) (g : A -> B) l :
  sort_key key (map g l) = map g (sort_key (fun x => key (g x)) l).
Proof.
  induction l as [|x l IH]; simpl; [reflexivity|]. rewrite IH.
  generalize (sort_key (fun x => key (g x)) l). intros s.
  induction s as [|y s IHs]; simpl; [reflexivity|].
  destruct (py_lt (key (g y)) (key (g x))); simpl; [now rewrite IHs|easy].
Qed.

Lemma StronglySorted_filter {A} (R : relation A) (P : A -> Prop)
    `{forall x, Decision (P x)} l :
  StronglySorted R l -> StronglySorted R (filter P l).
Proof.
  induction 1 as [|x l Hs IH Hx]; [constructor|].
  rewrite filter_cons. destruct (decide (P x)); [|assumption].
  constructor; [assumption|].
  rewrite Forall_forall in *. intros y Hy.
  apply list_elem_of_filter in Hy as [_ Hy]. now apply Hx.
Qed.

(** ** The orders on the sort keys *)

Global Instance PyOrdLaws_int : PyOrdLaws Z.
Proof.
  split; unfold py_lt, PyOrd_int; intros.
  - apply Z.ltb_irrefl.
  - apply Z.ltb_lt. apply Z.ltb_lt in H, H0. lia.
  - apply Z.ltb_ge in H, H0. lia.
Qed.

Global Instance PyOrdLaws_bool : PyOrdLaws bool.
Proof.
  split; unfold py_lt, PyOrd_bool.
  - now intros [].
  - now intros [] [] [].
  - now intros [] [].
Qed.

Lemma str_ltb_irrefl (a : str) : PyStr.ltb a a = false.
Proof.
  induction a as [|x a IH]; simpl; [reflexivity|].
  now rewrite N.ltb_irrefl, N.eqb_refl, IH.
Qed.

Lemma str_ltb_cons x y (a b : str) :
  PyStr.ltb (x :: a) (y :: b) = true
  <-> (x < y)%N \/ (x = y /\ PyStr.ltb a b = true).
Proof.
  simpl. rewrite orb_true_iff, andb_true_iff, N.ltb_lt, N.eqb_eq. tauto.
Qed.

Lemma str_ltb_trans (a b c : str) :
  PyStr.ltb a b = true -> PyStr.ltb b c = true -> PyStr.ltb a c = true.
Proof.
  revert b c. induction a as [|x a IH]; intros [|y b] [|z c]; try easy.
  rewrite !str_ltb_cons. intros [?|[-> ?]] [?|[-> ?]]; eauto; left; lia.
Qed.

Lemma str_ltb_connex (a b : str) :
  PyStr.ltb a b = false -> PyStr.ltb b a = false -> a = b.
Proof.
  revert b. induction a as [|x a IH]; intros [|y b]; try easy.
  simpl. rewrite !orb_false_iff, !andb_false_iff, !N.ltb_ge, !N.eqb_neq.
  intros [? [?|?]] [? [?|?]]; try lia.
  assert (x = y) by lia. subst. f_equal. now apply IH.
Qed.

Global Instance PyOrdLaws_str : PyOrdLaws str.
Proof.
  split; unfold py_lt, PyOrd_str.
  - apply str_ltb_irrefl.
  - apply str_ltb_trans.
  - apply str_ltb_connex.
Qed.

(** A common beginning does not change the comparison. *)
Lemma str_ltb_app (c a b : str) :
  PyStr.ltb (c ++ a) (c ++ b) = PyStr.ltb a b.
Proof.
  induction c as [|x c IH]; simpl; [reflexivity|].
  now rewrite N.ltb_irrefl, N.eqb_refl, IH.
Qed.

Lemma lower_app (a b : str) :
  PyStr.lower (a ++ b) = PyStr.lower a ++ PyStr.lower b.
Proof. apply map_app. Qed.

Lemma join_snoc (sep : str) (l : list str) (x : str) :
  PyStr.join sep (l ++ [x])
  = match l with [] => x | _ :: _ => PyStr.join sep l ++ sep ++ x end.
Proof.
  induction l as [|y l IH]; [reflexivity|].
  change ((y :: l) ++ [x]) with (y :: (l ++ [x])).
  destruct l as [|z l]; [reflexivity|].
  change (PyStr.join sep (y :: (z :: l) ++ [x]))
    with (y ++ sep ++ PyStr.join sep ((z :: l) ++ [x])).
  rewrite IH.
  change (PyStr.join sep (y :: z :: l))
    with (y ++ sep ++ PyStr.join sep (z :: l)).
  now rewrite <- !app_assoc.
Qed.

(** ** Paths and the file system *)

Section PathLemmas.
Import pathlib.

Lemma name_snoc (loc : list str) (nm : str) : name (mkabs (loc ++ [nm])) = nm.
Proof. unfold name. simpl. now rewrite last_snoc. Qed.

Lemma to_str_snoc (loc : list str) :
  exists pre, forall nm, to_str (mkabs (loc ++ [nm])) = pre ++ nm.
Proof.
  exists (sep ++ match loc with
                 | [] => []
                 | _ :: _ => PyStr.join sep loc ++ sep
                 end).
  intros nm'. unfold to_str. simpl. rewrite join_snoc.
  destruct loc; [reflexivity|]. now rewrite <- !app_assoc.
Qed.

Lemma entry_elem_of nm es n : entry nm es = Some n -> (nm, n) ∈ es.
Proof.
  induction es as [|[nm' n'] es IH]; simpl; [easy|].
  destruct (decide (nm' = nm)) as [->|].
  - intros [= ->]. apply list_elem_of_here.
  - intros E. apply list_elem_of_further. now apply IH.
Qed.

Lemma entry_is_Some nm es : nm ∈ map fst es -> is_Some (entry nm es).
Proof.
  induction es as [|[nm' n'] es IH]; simpl.
  - intros E. now apply elem_of_nil in E.
  - destruct (decide (nm' = nm)); [eauto|].
    intros [E|E]%elem_of_cons; [congruence|auto].
Qed.

Lemma subtree_app n a b :
  subtree n (a ++ b) = subtree n a ≫= fun m => subtree m b.
Proof.
  revert n. induction a as [|c a IH]; intros n; simpl; [reflexivity|].
  destruct n as [| |es]; try reflexivity.
  destruct (entry c es); [apply IH|reflexivity].
Qed.

Lemma subtree_snoc n loc nm es :
  subtree n loc = Some (Dir es) -> subtree n (loc ++ [nm]) = entry nm es.
Proof.
  intros E. rewrite subtree_app, E. simpl. now destruct (entry nm es).
Qed.

Lemma wf_entry es nm n :
  wf_node (Dir es) = true -> (nm, n) ∈ es ->
  nm <> [] /\ nm <> pardir /\ wf_node n = true.
Proof.
  simpl. rewrite forallb_forall. intros Hwf Hin.
  apply list_elem_of_In in Hin. specialize (Hwf _ Hin). simpl in Hwf.
  rewrite !andb_true_iff, !negb_true_iff, !bool_decide_eq_false in Hwf.
  tauto.
Qed.

Lemma wf_subtree n loc m :
  wf_node n = true -> subtree n loc = Some m -> wf_node m = true.
Proof.
  revert n. induction loc as [|c loc IH]; intros n Hwf; simpl.
  - now intros [= <-].
  - destruct n as [| |es]; try easy.
    destruct (entry c es) as [n'|] eqn:E; [|easy].
    apply IH. apply entry_elem_of in E. now apply (wf_entry es c n').
Qed.

Lemma height_entry es nm n : (nm, n) ∈ es -> (height n < height (Dir es))%nat.
Proof.
  intros Hin. simpl.
  assert (height n ∈ map (fun e => height e.2) es).
  { apply list_elem_of_fmap. now exists (nm, n). }
  pose proof (max_list_elem_of_le _ _ H). lia.
Qed.

Lemma height_subtree n loc m :
  subtree n loc = Some m -> (height m <= height n)%nat.
Proof.
  revert n. induction loc as [|c loc IH]; intros n; simpl.
  - intros [= <-]. lia.
  - destruct n as [| |es]; try easy.
    destruct (entry c es) as [n'|] eqn:E; [|easy].
    intros Hm. apply IH in Hm. apply entry_elem_of in E.
    apply height_entry in E. lia.
Qed.

(** In a well-formed tree, an existing location is its own resolution. *)
Lemma walk_existing root pre ps n :
  wf_node root = true -> subtree root (pre ++ ps) = Some n ->
  walk root pre ps = Some (pre ++ ps).
Proof.
  intros Hwf. revert pre. induction ps as [|c ps IH]; intros pre E; simpl.
  - now rewrite app_nil_r.
  - replace (pre ++ c :: ps) with ((pre ++ [c]) ++ ps) in *
      by now rewrite <- app_assoc.
    pose proof E as E'. rewrite subtree_app in E'.
    destruct (subtree root (pre ++ [c])) as [m|] eqn:Ec; [|easy].
    rewrite subtree_app in Ec.
    destruct (subtree root pre) as [[| |es]|] eqn:Ep; try easy.
    simpl in Ec. destruct (entry c es) as [m'|] eqn:Ee; [|easy].
    simpl. apply entry_elem_of in Ee.
    apply (wf_subtree _ _ _ Hwf) in Ep.
    destruct (wf_entry _ _ _ Ep Ee) as (_ & Hc & _).
    destruct (decide (c = pardir)); [contradiction|]. now apply IH.
Qed.

Lemma walk_normalize root pre ps loc :
  walk root pre ps = Some loc -> loc = normalize pre ps.
Proof.
  revert pre. induction ps as [|c ps IH]; intros pre; simpl.
  - now intros [= <-].
  - destruct (is_dir_node (subtree root pre)); [apply IH|easy].
Qed.

Variable fs : filesys.
Hypothesis Hwf : wf_node (fs_root fs) = true.

Lemma stat_abs loc n :
  subtree (fs_root fs) loc = Some n -> stat fs (mkabs loc) = Some n.
Proof.
  intros E. unfold stat, base. simpl.
  now rewrite (walk_existing _ [] loc n Hwf E).
Qed.

Lemma stat_child loc es nm :
  subtree (fs_root fs) loc = Some (Dir es) -> nm ∈ map fst es ->
  stat fs (mkabs (loc ++ [nm])) = entry nm es.
Proof.
  intros E Hin. destruct (entry_is_Some _ _ Hin) as [n En].
  rewrite En. apply stat_abs. now rewrite (subtree_snoc _ _ _ _ E).
Qed.

(** What a valid start directory resolves to. *)
Lemma is_dir_resolve p :
  is_dir fs p = true ->
  exists es, subtree (fs_root fs) (parts (resolve fs p)) = Some (Dir es)
             /\ stat fs p = Some (Dir es).
Proof.
  unfold is_dir, stat. simpl.
  destruct (walk (fs_root fs) (base fs p) (parts p)) as [loc|] eqn:E;
    [|easy].
  simpl. apply walk_normalize in E. subst loc.
  destruct (subtree _ _) as [[| |es]|]; try easy. eauto.
Qed.

End PathLemmas.

(** ** The methods compute the model *)

Section Refinement.
Import pathlib CNTree Model.

Lemma mapM_ret {A B} (f : A -> B) (l : list A) self :
  mapM (fun x => ret (f x)) l self = (Ok (map f l), self).
Proof.
  induction l as [|x l IH]; simpl; [reflexivity|].
  unfold bind at 1. simpl. unfold bind at 1. now rewrite IH.
Qed.

Lemma list_sort_ret {K A} `{PyOrd K} (key : A -> K) (l : list A) self :
  list_sort (fun x => ret (key x)) l self = (Ok (sort_key key l), self).
Proof.
  unfold list_sort. rewrite (bind_Ok _ _ _ _ _ (mapM_ret key l self)).
  unfold ret. now rewrite sort_decorated_zip.
Qed.

Variable fs : filesys.

Lemma mapM_do_sort (l : list PosixPath) self :
  Forall (fun p => name p <> []) l ->
  mapM (_do_sort) l self
  = (Ok (map (fun p => rank (_sort_order self) (name p)) l), self).
Proof.
  induction 1 as [|p l Hp _ IH]; simpl; [reflexivity|].
  unfold bind at 1. unfold _do_sort at 1. unfold bind at 1, get at 1.
  unfold rank at 1. destruct (name p) as [|c nm]; [easy|].
  unfold ret at 1. unfold bind at 1. now rewrite IH.
Qed.

Lemma list_sort_do_sort (l : list PosixPath) self :
  Forall (fun p => name p <> []) l ->
  list_sort (_do_sort) l self
  = (Ok (sort_key (fun p => rank (_sort_order self) (name p)) l), self).
Proof.
  intros Hl. unfold list_sort.
  rewrite (bind_Ok _ _ _ _ _ (mapM_do_sort l self Hl)).
  unfold ret. now rewrite sort_decorated_zip.
Qed.

Lemma for_enumerate_append {A B} (g : A -> B) (body : Z -> B -> M unit)
    (out : Z * A -> list str) (self : CNTree) (l : list A) :
  (forall i x t, x ∈ l ->
     body i (g x) (set_tree t self)
     = (Ok tt, set_tree (t ++ out (i, x)) self)) ->
  forall i t,
    for_enumerate body i (map g l) (set_tree t self)
    = (Ok tt, set_tree (t ++ flat_map out (enumerate i l)) self).
Proof.
  induction l as [|x l IH]; intros Hbody i t; simpl.
  - now rewrite app_nil_r.
  - rewrite (bind_Ok _ _ _ _ _ (Hbody i x t (list_elem_of_here _ _))).
    rewrite IH.
    + now rewrite <- app_assoc.
    + intros j y t' Hy. apply Hbody. now apply list_elem_of_further.
Qed.

Lemma filter_map_path {A} (g : A -> PosixPath) (flt : list PosixPath) l :
  filter (fun item => item ∉ flt) (map g l)
  = map g (filter (fun x => g x ∉ flt) l).
Proof.
  induction l as [|x l IH]; [reflexivity|].
  simpl map. rewrite !filter_cons, IH.
  now destruct (decide (g x ∉ flt)).
Qed.

Hypothesis Hwf : wf_node (fs_root fs) = true.

Section Directory.
Variables (loc : list str) (es : list (str * node)).
Hypothesis Hdir : subtree (fs_root fs) loc = Some (Dir es).

Lemma iterdir_dir self :
  iterdir fs (mkabs loc) self = (Ok (map (child loc) (map fst es)), self).
Proof.
  unfold iterdir. rewrite (stat_abs fs Hwf loc _ Hdir).
  unfold ret. now rewrite map_map.
Qed.

Lemma sort_lower_names (l : list str) :
  sort_key (fun item => PyStr.lower (to_str item)) (map (child loc) l)
  = map (child loc) (sort_key PyStr.lower l).
Proof.
  rewrite sort_key_map. f_equal. apply sort_key_ext. intros a b _ _.
  destruct (to_str_snoc loc) as [pre Hpre]. unfold child.
  rewrite !Hpre, !lower_app. apply str_ltb_app.
Qed.

Lemma sort_rank_names so (l : list str) :
  sort_key (fun p => rank so (name p)) (map (child loc) l)
  = map (child loc) (sort_key (rank so) l).
Proof.
  rewrite sort_key_map. f_equal. apply sort_key_ext. intros a b _ _.
  unfold child. now rewrite !name_snoc.
Qed.

Lemma names_nonempty (l : list str) :
  l ⊆ map fst es -> Forall (fun p => name p <> []) (map (child loc) l).
Proof.
  intros Hl. apply Forall_forall. intros p Hp.
  apply list_elem_of_fmap in Hp as (nm & -> & Hnm). unfold child.
  rewrite name_snoc. apply Hl in Hnm.
  destruct (entry_is_Some _ _ Hnm) as [n En].
  apply entry_elem_of in En.
  apply (wf_subtree _ _ _ Hwf) in Hdir.
  now destruct (wf_entry _ _ _ Hdir En).
Qed.

Lemma sort_is_file_names (l : list str) :
  l ⊆ map fst es ->
  sort_key (fun item => is_file fs item) (map (child loc) l)
  = map (child loc) (sort_key (fun nm => is_file_node (entry nm es)) l).
Proof.
  intros Hl. rewrite sort_key_map. f_equal. apply sort_key_ext.
  intros a b Ha Hb. unfold is_file, child.
  now rewrite !(stat_child fs Hwf loc es) by auto.
Qed.

Lemma ordered_names so : ordered so es ⊆ map fst es.
Proof. unfold ordered. now do 3 apply sort_key_subseteq. Qed.

Lemma survivors_names self : survivors self loc es ⊆ map fst es.
Proof.
  intros nm Hnm. apply list_elem_of_filter in Hnm as [_ Hnm].
  now apply ordered_names in Hnm.
Qed.

End Directory.

(** [_add_contents] appends the lines of the model, and nothing else of
    the instance changes. *)
Lemma add_contents_lines fuel :
  forall self loc es prefix t,
    subtree (fs_root fs) loc = Some (Dir es) ->
    (height (Dir es) <= fuel)%nat ->
    _add_contents fs fuel (mkabs loc) prefix (set_tree t self)
    = (Ok tt, set_tree (t ++ lines fuel self loc es prefix) self).
Proof.
  induction fuel as [|fuel IH]; intros self loc es prefix t Hdir Hh.
  { simpl in Hh. lia. }
  cbn [_add_contents lines].
  rewrite (bind_Ok _ _ _ _ _ (iterdir_dir loc es Hdir _)).
  rewrite (bind_Ok _ _ _ _ _ (list_sort_ret _ _ _)).
  rewrite (sort_lower_names loc).
  assert (H1 : sort_key PyStr.lower (map fst es) ⊆ map fst es)
    by now apply sort_key_subseteq.
  rewrite (bind_Ok _ _ _ _ _ (list_sort_do_sort _ _
             (names_nonempty loc es Hdir _ H1))).
  change (_sort_order (set_tree t self)) with (_sort_order self).
  rewrite (sort_rank_names loc).
  rewrite (bind_Ok _ _ _ _ _ (list_sort_ret _ _ _)).
  rewrite (sort_is_file_names loc es Hdir)
    by now apply sort_key_subseteq.
  unfold bind at 1, get at 1.
  change (_filter_list (set_tree t self)) with (_filter_list self).
  rewrite filter_map_path.
  fold (ordered (_sort_order self) es).
  fold (survivors self loc es).
  rewrite length_map.
  apply for_enumerate_append.
  intros i nm t' Hnm. unfold child.
  pose proof (survivors_names loc es self nm Hnm) as Hin.
  unfold bind at 1, get at 1.
  change (_root_lead (set_tree t' self)) with (_root_lead self).
  change (_dir_format (set_tree t' self)) with (_dir_format self).
  change (_file_format (set_tree t' self)) with (_file_format self).
  unfold is_dir. rewrite (stat_child fs Hwf loc es nm Hdir Hin).
  rewrite name_snoc.
  unfold bind at 1, tree_append at 1, modify at 1.
  rewrite set_tree_twice.
  change (_tree (set_tree t' self)) with t'.
  unfold connector, rep_name. cbn [fst snd].
  destruct (entry nm es) as [[| |es']|] eqn:En; cbn [is_dir_node];
    unfold ret; rewrite ?app_nil_r; try reflexivity.
  unfold _add_dir, bind at 1, get at 1.
  change (_dir_lead (set_tree _ self)) with (_dir_lead self).
  rewrite <- !app_assoc.
  rewrite (IH self (loc ++ [nm]) es').
  - unfold segment. now rewrite <- !app_assoc.
  - now rewrite (subtree_snoc _ _ _ _ Hdir).
  - apply entry_elem_of, height_entry in En. lia.
Qed.

End Refinement.

(** ** What [build_tree] returns *)

Section Build.
Import pathlib CNTree Model.
Variable fs : filesys.

Lemma build_tree_reset sd fl df ff self :
  build_tree fs sd fl df ff self = build_tree fs sd fl df ff __init__.
Proof. reflexivity. Qed.

Lemma sanitize_start_dir_valid s self :
  is_dir fs (Path s) = true ->
  _sanitize_start_dir fs (Some s) self
  = (Ok tt, set_start_dir (Some (resolve fs (Path s))) self).
Proof.
  intros Hd. unfold _sanitize_start_dir, bind, modify, get. simpl.
  now rewrite Hd.
Qed.

Lemma sanitize_start_dir_invalid sd self :
  match sd with Some s => is_dir fs (Path s) | None => false end = false ->
  exists self',
    _sanitize_start_dir fs sd self = (Raise (OSError []), self').
Proof.
  destruct sd as [s|]; intros Hd.
  - unfold _sanitize_start_dir, bind, modify, get. simpl. rewrite Hd.
    simpl. eauto.
  - simpl. unfold raise. eauto.
Qed.

Lemma sanitize_filter_list_ok fl start self :
  _start_dir self = Some start ->
  _sanitize_filter_list fs fl self
  = (Ok tt,
     set_filter_list
       (map (fun s => sanitize_item fs start (Path s)) fl) self).
Proof.
  intros Hs. unfold _sanitize_filter_list, bind, get. rewrite Hs.
  unfold modify. now rewrite map_map.
Qed.

Lemma sanitize_formats_ok df ff self :
  _sanitize_formats df ff self
  = (Ok tt,
     set_file_format
       (if format_ok ff then default [] ff else _file_format self)
       (set_dir_format
          (if format_ok df then default [] df else _dir_format self)
          self)).
Proof.
  unfold _sanitize_formats, bind.
  destruct self; destruct (format_ok df), (format_ok ff); reflexivity.
Qed.

Lemma get_leads_ok self :
  _get_leads self
  = (Ok tt,
     set_dir_lead
       (PyStr.spaces (PyStr.find (_dir_format self) FORMAT_NAME))
       (set_root_lead
          (PyStr.spaces
             (PyStr.find (PyStr.lstrip (_dir_format self)) FORMAT_NAME))
          self)).
Proof. reflexivity. Qed.

Lemma get_sort_order_ok self :
  _sort_order self = ∅ ->
  _get_sort_order self = (Ok tt, set_sort_order sort_table self).
Proof.
  intros He. unfold _get_sort_order. simpl. unfold bind, modify, ret.
  simpl. now rewrite He.
Qed.

Lemma add_root_ok start self :
  _start_dir self = Some start ->
  _add_root self
  = (Ok tt, set_tree (_tree self ++ [root_line self (parts start)]) self).
Proof.
  intros Hs. unfold _add_root, bind, get. rewrite Hs.
  now destruct start.
Qed.

(** An invalid start directory: the error, and no tree. *)
Lemma build_tree_invalid sd fl df ff self :
  match sd with Some s => is_dir fs (Path s) | None => false end = false ->
  exists self',
    build_tree fs sd fl df ff self
    = (Raise (OSError (ERR_NOT_A_DIR sd)), self').
Proof.
  intros Hd. rewrite build_tree_reset. unfold build_tree.
  do 8 (unfold bind at 1; unfold modify at 1).
  destruct (sanitize_start_dir_invalid sd
              (set_tree [] (set_sort_order ∅ (set_dir_lead []
                 (set_root_lead [] (set_file_format FORMAT_FILE
                    (set_dir_format FORMAT_DIR (set_filter_list []
                       (set_start_dir None __init__))))))))
              Hd) as [self' E].
  exists self'. unfold bind at 1, reraise_OSError at 1. now rewrite E.
Qed.

Hypothesis Hwf : wf_node (fs_root fs) = true.

(** A valid start directory: the root's line and the lines below it,
    joined by newlines. *)
Lemma build_tree_valid s fl df ff self :
  is_dir fs (Path s) = true ->
  exists es,
    subtree (fs_root fs) (parts (resolve fs (Path s))) = Some (Dir es)
    /\ let start := resolve fs (Path s) in
       let cfg := configured fs start (default [] fl) df ff in
       let t := root_line cfg (parts start)
                :: lines (recursion_bound fs) cfg (parts start) es [] in
       build_tree fs (Some s) fl df ff self
       = (Ok (PyStr.join [10%N] t), set_tree t cfg).
Proof.
  intros Hd. destruct (is_dir_resolve fs (Path s) Hd) as (es & Hes & _).
  exists es. split; [assumption|]. intros start cfg t.
  rewrite build_tree_reset. unfold build_tree.
  do 8 (unfold bind at 1; unfold modify at 1).
  unfold bind at 1, reraise_OSError at 1.
  rewrite (sanitize_start_dir_valid s _ Hd).
  erewrite bind_Ok;
    [|now apply (sanitize_filter_list_ok (default [] fl) start)].
  rewrite (bind_Ok _ _ _ _ _ (sanitize_formats_ok df ff _)).
  rewrite (bind_Ok _ _ _ _ _ (get_leads_ok _)).
  erewrite bind_Ok; [|now apply get_sort_order_ok].
  erewrite bind_Ok; [|now apply (add_root_ok start)].
  unfold bind at 1, get at 1. unfold bind at 1.
  change (_start_dir _) with (Some (mkabs (parts start))).
  cbv iota beta.
  match goal with
  | |- context [_add_contents fs ?f ?it ?p ?st] =>
      change st with (set_tree [root_line cfg (parts start)] cfg)
  end.
  rewrite (add_contents_lines fs Hwf (recursion_bound fs) cfg
             (parts start) es [] [root_line cfg (parts start)] Hes
             (height_subtree _ _ _ Hes)).
  reflexivity.
Qed.

End Build.

(** ** Fuel *)

Section Fuel.
Import pathlib CNTree Model.

(** More fuel than the height of the directory changes nothing. *)
Lemma lines_fuel fuel :
  forall fuel' self loc es prefix,
    (height (Dir es) <= fuel)%nat -> (height (Dir es) <= fuel')%nat ->
    lines fuel self loc es prefix = lines fuel' self loc es prefix.
Proof.
  induction fuel as [|fuel IH]; intros fuel' self loc es prefix H1 H2.
  { simpl in H1. lia. }
  destruct fuel' as [|fuel']; [simpl in H2; lia|].
  cbn [lines]. apply flat_map_ext. intros [i nm]. cbn [fst snd]. f_equal.
  destruct (entry nm es) as [[| |es']|] eqn:En; try reflexivity.
  apply entry_elem_of, height_entry in En. apply IH; lia.
Qed.

End Fuel.

(** ** The claims *)

Section Claims.
Import pathlib CNTree Model.

(** C9. Two calls of [build_tree] with the same parameters on the same
    file system return the same string, whatever state the instance was
    left in: every attribute is reset at the start of the call.  In
    particular the result of a build is the same before and after another
    build on the same instance. *)
Theorem C9_build_tree_resets_state fs sd fl df ff :
  (forall self self',
     build_tree fs sd fl df ff self = build_tree fs sd fl df ff self')
  /\ (forall sd' fl' df' ff' self,
        let first := build_tree fs sd fl df ff self in
        let other := build_tree fs sd' fl' df' ff' first.2 in
        let again := build_tree fs sd fl df ff other.2 in
        again.1 = first.1).
Proof.
  split.
  - intros self self'.
    now rewrite (build_tree_reset fs sd fl df ff self),
                (build_tree_reset fs sd fl df ff self').
  - intros sd' fl' df' ff' self first other again. unfold again, first.
    now rewrite (build_tree_reset fs sd fl df ff other.2),
                (build_tree_reset fs sd fl df ff self).
Qed.




Lemma format_ok_chosen builtin fmt :
  (if format_ok fmt then default [] fmt else builtin)
  = chosen_format builtin fmt.
Proof. destruct fmt as [[|c f]|]; reflexivity. Qed.

Lemma format_ok_Some_chosen builtin fmt :
  format_ok (Some builtin) = true ->
  format_ok (Some (chosen_format builtin fmt)) = true.
Proof.
  intros Hb. destruct fmt as [[|c f]|]; try assumption.
  unfold chosen_format. rewrite bool_decide_eq_true_2 by easy.
  destruct (PyStr.contains FORMAT_NAME (c :: f)) eqn:Hc; simpl;
    [exact Hc|assumption].
Qed.



(** C2. [build_tree] raises [OSError] if and only if [start_dir] is
    [None], names nothing that exists, or names something that is not a
    directory; then no string is returned.  On an existing directory it
    returns a string and raises nothing. *)
Theorem C2_invalid_start_dir fs sd fl df ff self :
  wf_node (fs_root fs) = true ->
  ((exists msg self',
       build_tree fs sd fl df ff self = (Raise (OSError msg), self'))
   <-> (sd = None
        \/ (exists s, sd = Some s /\ stat fs (Path s) = None)
        \/ (exists s n, sd = Some s /\ stat fs (Path s) = Some n
                        /\ forall es, n <> Dir es)))
  /\ ((exists msg self',
         build_tree fs sd fl df ff self = (Raise (OSError msg), self'))
      -> forall out self', build_tree fs sd fl df ff self <> (Ok out, self'))
  /\ ((exists s es, sd = Some s /\ stat fs (Path s) = Some (Dir es))
      -> exists out self',
           build_tree fs sd fl df ff self = (Ok out, self')).
Proof.
  intros Hwf.
  assert (Hvalid : forall s, sd = Some s -> is_dir fs (Path s) = true ->
            exists out self',
              build_tree fs sd fl df ff self = (Ok out, self')).
  { intros s -> Hd.
    destruct (build_tree_valid fs Hwf s fl df ff self Hd) as (es & _ & E).
    simpl in E. rewrite E. eauto. }
  split; [split|split].
  - intros (msg & self' & E).
    destruct sd as [s|]; [|now left]. right.
    unfold is_dir in Hvalid. specialize (Hvalid s eq_refl).
    destruct (stat fs (Path s)) as [[| |es]|] eqn:Es.
    + right. exists s, File. easy.
    + right. exists s, Other. easy.
    + destruct (Hvalid eq_refl) as (out & self'' & E'). congruence.
    + left. now exists s.
  - intros Hinv.
    destruct (build_tree_invalid fs sd fl df ff self) as [self' E];
      [|eauto].
    destruct Hinv as [->|[(s & -> & Es)|(s & n & -> & Es & Hn)]];
      [reflexivity| |]; unfold is_dir; rewrite Es; [reflexivity|].
    destruct n as [| |es]; try reflexivity. now destruct (Hn es).
  - intros (msg & self' & E) out self''. congruence.
  - intros (s & es & -> & Es). apply (Hvalid s eq_refl).
    unfold is_dir. now rewrite Es.
Qed.

Lemma C2_invalid_start_dir_witness :
  wf_node (fs_root Examples.fs) = true
  /\ exists out self',
       build_tree Examples.fs (Some (lit "Foo")) None None None __init__
       = (Ok out, self').
Proof.
  split; [reflexivity|].
  apply (C2_invalid_start_dir Examples.fs (Some (lit "Foo")) None None None
           __init__ eq_refl).
  exists (lit "Foo"), [(lit "bar.txt", File)]. split; reflexivity.
Defined.

(** C1. The start directory is named [R] and holds exactly the directory
    [A], which holds exactly the file [x.txt], and the file [b.txt], in
    whatever order the system lists them; with no filter and the built-in
    formats, [build_tree] returns the four lines joined by single
    newlines, with no newline at the end. *)
Theorem C1_end_to_end_scenario fs s fl df ff self es :
  wf_node (fs_root fs) = true ->
  stat fs (Path s) = Some (Dir es) ->
  name (resolve fs (Path s)) = lit "R" ->
  es ≡ₚ [(lit "A", Dir [(lit "x.txt", File)]); (lit "b.txt", File)] ->
  default [] fl = [] -> default [] df = [] -> default [] ff = [] ->
  (build_tree fs (Some s) fl df ff self).1
  = Ok (lit "R/" ++ [10%N]
        ++ [9500%N; 9472%N] ++ lit " A/" ++ [10%N]
        ++ [9474%N; 32%N] ++ lit " " ++ [9492%N; 9472%N] ++ lit " x.txt"
        ++ [10%N]
        ++ [9492%N; 9472%N] ++ lit " b.txt").
Proof.
  intros Hwf Hs Hname Hes Hfl Hdf Hff.
  assert (Hd : is_dir fs (Path s) = true)
    by (unfold is_dir; now rewrite Hs).
  destruct (build_tree_valid fs Hwf s fl df ff self Hd) as (es' & Hsub & E).
  destruct (is_dir_resolve fs (Path s) Hd) as (es'' & Hsub' & Hs').
  assert (es' = es) as -> by congruence.
  cbv zeta in E. rewrite E. cbn [fst]. clear E.
  rewrite Hfl. unfold root_line.
  change (name (mkabs (parts (resolve fs (Path s)))))
    with (name (resolve fs (Path s))).
  rewrite Hname.
  symmetry in Hes. apply Permutation_length_2_inv in Hes.
  assert (Hh : height (Dir es) = 2%nat).
  { destruct Hes as [->| ->]; reflexivity. }
  rewrite (lines_fuel (recursion_bound fs) 2).
  2: { pose proof (height_subtree _ _ _ Hsub). unfold recursion_bound.
       lia. }
  2: { lia. }
  generalize (resolve fs (Path s)). intros start.
  assert (Hfmt : forall f : option str, default [] f = [] ->
                   format_ok f = false).
  { intros [[|c f]|]; easy. }
  unfold configured, effective_dir, effective_file.
  rewrite (Hfmt df Hdf), (Hfmt ff Hff).
  generalize (parts start). intros loc.
  destruct Hes as [->| ->]; vm_compute; reflexivity.
Qed.

Lemma C1_end_to_end_scenario_witness :
  (build_tree Scenario.fs (Some (lit "R")) None None None __init__).1
  = Ok Scenario.expected.
Proof.
  apply (C1_end_to_end_scenario Scenario.fs (lit "R") None None None
           __init__
           [(lit "b.txt", File); (lit "A", Dir [(lit "x.txt", File)])]);
    try reflexivity.
  apply Permutation_swap.
Defined.

Lemma enumerate_lookup {A} (l : list A) : forall (k : Z) (i : nat),
  enumerate k l !! i = (fun x => (k + Z.of_nat i, x)) <$> l !! i.
Proof.
  induction l as [|x l IH]; intros k i; [now destruct i|].
  destruct i as [|i]; simpl.
  - now rewrite Z.add_0_r.
  - rewrite IH. destruct (l !! i); simpl; [|reflexivity].
    do 2 f_equal. lia.
Qed.

Lemma enumerate_length {A} (l : list A) : forall k : Z,
  length (enumerate k l) = length l.
Proof. induction l as [|x l IH]; intros k; simpl; [|rewrite IH]; easy. Qed.

(** C5. In every directory, the child at position [i] among the [n]
    surviving children gets the tee connector if [i < n - 1] and the elbow
    connector if [i = n - 1]; its line opens the block of lines added for
    it, and the blocks follow one another in the order of the survivors.
    A directory without surviving children adds no line. *)
Theorem C5_connector_by_position fs fuel loc es prefix self :
  wf_node (fs_root fs) = true ->
  subtree (fs_root fs) loc = Some (Dir es) ->
  (height (Dir es) <= fuel)%nat ->
  let items := survivors self loc es in
  let n := length items in
  exists blocks self',
    _add_contents fs fuel (mkabs loc) prefix self = (Ok tt, self')
    /\ _tree self' = _tree self ++ concat blocks
    /\ length blocks = n
    /\ (forall i nm, items !! i = Some nm ->
          exists rest,
            blocks !! i
            = Some ((_root_lead self ++ prefix
                       ++ (if bool_decide (S i < n)%nat then CONNECTOR_TEE
                           else CONNECTOR_ELL)
                       ++ rep_name self es nm) :: rest))
    /\ (n = 0%nat -> _tree self' = _tree self).
Proof.
  intros Hwf Hdir Hh items n.
  pose proof (add_contents_lines fs Hwf fuel self loc es prefix
                (_tree self) Hdir Hh) as E.
  rewrite set_tree_tree in E.
  destruct fuel as [|fuel]; [simpl in Hh; lia|].
  cbn [lines] in E. fold items in E. fold n in E.
  rewrite flat_map_concat_map in E.
  eexists _, _. split; [exact E|]. split; [reflexivity|].
  split; [|split].
  - now rewrite length_map, enumerate_length.
  - intros i nm Hi. rewrite list_lookup_fmap, enumerate_lookup, Hi.
    simpl. eexists. do 4 f_equal. unfold connector.
    apply lookup_lt_Some in Hi. fold n in Hi.
    destruct (bool_decide_reflect (S i < n)%nat);
      destruct (Z.ltb_spec (0 + Z.of_nat i) (Z.of_nat n - 1));
      (reflexivity || lia).
  - intros Hn. apply length_zero_iff_nil in Hn. rewrite Hn. simpl.
    now rewrite app_nil_r.
Qed.

Lemma C5_connector_by_position_witness :
  exists blocks self',
    _add_contents Examples.fs 3 (mkabs [lit "R"]) [] __init__
    = (Ok tt, self')
    /\ _tree self' = _tree __init__ ++ concat blocks
    /\ length blocks = 3%nat
    /\ (forall i nm,
          [lit "Foo"; lit "a.txt"; lit "b.txt"] !! i = Some nm ->
          exists rest,
            blocks !! i
            = Some (([] ++ []
                       ++ (if bool_decide (S i < 3)%nat then CONNECTOR_TEE
                           else CONNECTOR_ELL)
                       ++ rep_name __init__
                            [(lit "b.txt", File);
                             (lit "Foo", Dir [(lit "bar.txt", File)]);
                             (lit "a.txt", File)] nm) :: rest))
    /\ (3%nat = 0%nat -> _tree self' = _tree __init__).
Proof.
  apply (C5_connector_by_position Examples.fs 3 [lit "R"]
           [(lit "b.txt", File); (lit "Foo", Dir [(lit "bar.txt", File)]);
            (lit "a.txt", File)] [] __init__);
    [reflexivity|reflexivity|simpl; lia].
Defined.

Lemma StronglySorted_weaken {A} (R R' : relation A) l :
  (forall a b, R a b -> R' a b) ->
  StronglySorted R l -> StronglySorted R' l.
Proof.
  intros HR. induction 1 as [|x l _ IH Hx]; constructor; [assumption|].
  eapply Forall_impl; eauto.
Qed.

Lemma StronglySorted_lookup {A} (R : relation A) l :
  StronglySorted R l ->
  forall i j a b, (i < j)%nat -> l !! i = Some a -> l !! j = Some b ->
                  R a b.
Proof.
  induction 1 as [|x l _ IH Hx]; intros i j a b Hij Hi Hj; [easy|].
  destruct j as [|j]; [lia|]. simpl in Hj. destruct i as [|i].
  - simpl in Hi. injection Hi as <-. rewrite Forall_forall in Hx.
    apply Hx. eapply list_elem_of_lookup_2; eauto.
  - simpl in Hi. apply (IH i j); auto. lia.
Qed.

Lemma rank_sort_table nm : rank sort_table nm = spec_rank nm.
Proof.
  destruct nm as [|c nm]; [reflexivity|]. unfold rank, spec_rank, sort_table.
  destruct (N.eqb_spec c 95) as [->|H95]; [reflexivity|].
  destruct (N.eqb_spec c 46) as [->|H46]; [reflexivity|].
  now rewrite !lookup_insert_ne, lookup_empty by congruence.
Qed.

Lemma str_ltb_asym (a b : str) :
  PyStr.ltb a b = true -> PyStr.ltb b a = false.
Proof.
  intros Hab. destruct (PyStr.ltb b a) eqn:Hba; [|reflexivity].
  pose proof (str_ltb_trans _ _ _ Hab Hba) as H.
  now rewrite str_ltb_irrefl in H.
Qed.

Lemma StronglySorted_True {A} (l : list A) :
  StronglySorted (fun _ _ => True) l.
Proof.
  induction l as [|x l IH]; constructor; [assumption|].
  now apply Forall_forall.
Qed.

Lemma ordered_sorted es :
  StronglySorted (precedes es) (ordered sort_table es).
Proof.
  unfold ordered.
  pose proof (sort_key_sorted PyStr.lower (fun _ _ => True) (map fst es)
                (StronglySorted_True _)) as H1.
  pose proof (sort_key_sorted (rank sort_table) _ _ H1) as H2.
  pose proof (sort_key_sorted
                (fun nm => is_file_node (entry nm es)) _ _ H2) as H3.
  eapply StronglySorted_weaken; [|exact H3].
  - intros a b [Hlt|[Heq Hrest]]; unfold precedes.
    + left. unfold py_lt, PyOrd_bool in Hlt.
      apply andb_true_iff in Hlt as [Ha Hb].
      now apply negb_true_iff in Ha.
    + right. split; [assumption|]. rewrite <- !rank_sort_table.
      destruct Hrest as [Hlt|[Heq' Hlow]].
      * left. now apply Z.ltb_lt.
      * right. split; [assumption|].
        destruct Hlow as [Hlt|[-> _]];
          [now apply str_ltb_asym|apply str_ltb_irrefl].
Qed.




Lemma lstrip_head s c r : PyStr.lstrip s = c :: r -> PyStr.isspace c = false.
Proof.
  induction s as [|x s IH]; simpl; [easy|].
  destruct (PyStr.isspace x) eqn:Hx; [assumption|]. now intros [= <- _].
Qed.

Lemma replace_head fmt new c' :
  head (PyStr.replace fmt FORMAT_NAME new) = Some c' ->
  (PyStr.startswith FORMAT_NAME fmt = false /\ head fmt = Some c')
  \/ (PyStr.startswith FORMAT_NAME fmt = true
      /\ (head new = Some c' \/ new = [])).
Proof.
  change FORMAT_NAME with (36%N :: lit "NAME"). unfold PyStr.replace.
  destruct fmt as [|c fmt]; [easy|]. cbn [PyStr.replace_aux].
  destruct (PyStr.startswith _ (c :: fmt)); [|now left].
  right. split; [reflexivity|]. destruct new; [now right|now left].
Qed.

(** C6, as the code has it.  For every valid start directory the output
    begins with the root's line: the directory format, left-trimmed, with
    the placeholder replaced by the base name of the start directory, and
    nothing before it.  The trimmed format begins with no white space, and
    the line begins with none whenever the base name is not empty and does
    not itself begin with white space. *)
Theorem C6_root_line fs s fl df ff self :
  wf_node (fs_root fs) = true ->
  is_dir fs (Path s) = true ->
  let start := resolve fs (Path s) in
  let fmt := PyStr.lstrip (chosen_format (lit " $NAME/") df) in
  let first := PyStr.replace fmt FORMAT_NAME (name start) in
  (exists rest self',
      build_tree fs (Some s) fl df ff self
      = (Ok (PyStr.join [10%N] (first :: rest)), self'))
  /\ (forall c, head fmt = Some c -> PyStr.isspace c = false)
  /\ (forall c nm, name start = c :: nm -> PyStr.isspace c = false ->
        forall c', head first = Some c' -> PyStr.isspace c' = false).
Proof.
  intros Hwf Hd start fmt first.
  assert (Hfmt : forall c, head fmt = Some c -> PyStr.isspace c = false).
  { intros c Hc. destruct fmt as [|c0 r] eqn:E; [easy|].
    injection Hc as ->. now apply (lstrip_head _ _ _ E). }
  split; [|split; [assumption|]].
  - destruct (build_tree_valid fs Hwf s fl df ff self Hd) as (es & _ & E).
    cbv zeta in E. eexists _, _. rewrite E. do 3 f_equal.
    unfold root_line, configured. cbn [_dir_format]. unfold effective_dir.
    now rewrite format_ok_chosen.
  - intros c nm Hnm Hc c' Hc'. unfold first in Hc'.
    apply replace_head in Hc' as [[_ H]|[_ [H|H]]]; [now apply Hfmt| |].
    + rewrite Hnm in H. now injection H as <-.
    + now rewrite Hnm in H.
Qed.

Lemma C6_root_line_witness :
  exists rest self',
    build_tree Examples.fs (Some (lit "Foo")) None None None __init__
    = (Ok (PyStr.join [10%N] (lit "Foo/" :: rest)), self').
Proof.
  apply (C6_root_line Examples.fs (lit "Foo") None None None __init__);
    reflexivity.
Defined.

(** C6 as stated fails: the start directory [/ A], whose name begins with
    a space, is valid, and the output begins with that space. *)
Lemma C6_counterexample :
  is_dir Examples.fs_space (Path (lit "/ A")) = true
  /\ ~ (forall out c,
          (build_tree Examples.fs_space (Some (lit "/ A")) None None None
                      __init__).1 = Ok out ->
          head out = Some c -> PyStr.isspace c = false).
Proof.
  split; [reflexivity|]. intros H.
  specialize (H (lit " A/") 32%N eq_refl eq_refl). discriminate H.
Qed.

Lemma find_from_ge sub s : forall i,
  PyStr.find_from i sub s = -1 \/ i <= PyStr.find_from i sub s.
Proof.
  induction s as [|c s IH]; intros i; simpl.
  - destruct (PyStr.startswith sub []); [right; lia|now left].
  - destruct (PyStr.startswith sub (c :: s)); [right; lia|].
    destruct (IH (i + 1)); [now left|right; lia].
Qed.

Lemma find_from_shift sub s : forall i j,
  0 <= i -> 0 <= j ->
  PyStr.find_from i sub s = -1 -> PyStr.find_from j sub s = -1.
Proof.
  induction s as [|c s IH]; intros i j Hi Hj; simpl.
  - destruct (PyStr.startswith sub []); [lia|easy].
  - destruct (PyStr.startswith sub (c :: s)); [lia|]. apply IH; lia.
Qed.

Lemma contains_find sub s :
  PyStr.contains sub s = true -> 0 <= PyStr.find s sub.
Proof.
  unfold PyStr.contains, PyStr.find. intros H.
  apply negb_true_iff, Z.eqb_neq in H.
  destruct (find_from_ge sub s 0); [contradiction|assumption].
Qed.

Lemma contains_lstrip s :
  PyStr.contains FORMAT_NAME s = true ->
  PyStr.contains FORMAT_NAME (PyStr.lstrip s) = true.
Proof.
  induction s as [|c s IH]; [easy|]. simpl.
  destruct (PyStr.isspace c) eqn:Hc; [|easy]. intros H. apply IH.
  unfold PyStr.contains, PyStr.find in *.
  apply negb_true_iff, Z.eqb_neq in H.
  apply negb_true_iff, Z.eqb_neq. intros E. apply H.
  change FORMAT_NAME with (36%N :: lit "NAME").
  cbn [PyStr.find_from PyStr.startswith].
  destruct (N.eqb_spec 36 c) as [<-|_]; [discriminate Hc|].
  cbn [andb]. now apply (find_from_shift _ _ 0).
Qed.

Lemma chosen_format_contains fmt :
  PyStr.contains FORMAT_NAME (chosen_format FORMAT_DIR fmt) = true.
Proof.
  pose proof (format_ok_Some_chosen FORMAT_DIR fmt eq_refl) as H.
  destruct (chosen_format FORMAT_DIR fmt); [discriminate H|exact H].
Qed.

Lemma prefix_of_snoc self flags (last : bool) :
  prefix_of self (flags ++ [last])
  = prefix_of self flags
    ++ (if last then PREFIX_NONE else PREFIX_VERT) ++ _dir_lead self.
Proof.
  unfold prefix_of. rewrite flat_map_app. simpl. now rewrite app_nil_r.
Qed.

Lemma trace_set_tree fuel : forall t self loc es flags,
  trace fuel (set_tree t self) loc es flags = trace fuel self loc es flags.
Proof.
  induction fuel as [|fuel IH]; intros t self loc es flags; [reflexivity|].
  cbn [trace]. apply flat_map_ext. intros [i nm]. cbn [fst snd]. f_equal.
  destruct (entry nm es) as [[| |es']|]; try reflexivity. apply IH.
Qed.

(** The lines are the emitted entries, rendered. *)
Lemma lines_trace fuel : forall self loc es flags,
  lines fuel self loc es (prefix_of self flags)
  = map (render self) (trace fuel self loc es flags).
Proof.
  induction fuel as [|fuel IH]; intros self loc es flags; [reflexivity|].
  cbn [lines trace].
  generalize (Z.of_nat (length (survivors self loc es))). intros count.
  generalize (enumerate 0 (survivors self loc es)). intros l.
  induction l as [|[i nm] l IHl]; [reflexivity|].
  cbn [flat_map fst snd]. rewrite map_app, <- IHl. f_equal.
  cbn [map]. f_equal.
  destruct (entry nm es) as [[| |es']|]; try reflexivity.
  rewrite <- IH, prefix_of_snoc. do 2 f_equal. unfold segment.
  now destruct (i <? count - 1).
Qed.

(** C8. The root lead is as many spaces as the offset of the placeholder
    in the left-trimmed directory format, the directory lead as many as
    its offset in the untrimmed format.  Every line after the root's
    begins with the root lead, followed, for each directory between the
    root and the entry, by a vertical bar and a space if that directory
    was not the last of its surviving siblings, or two spaces if it was,
    and then the directory lead; then come the connector and the name. *)
Theorem C8_leads_and_prefix fs s fl df ff self :
  wf_node (fs_root fs) = true ->
  is_dir fs (Path s) = true ->
  exists es self',
    let loc := parts (resolve fs (Path s)) in
    let root_off :=
      PyStr.find (PyStr.lstrip (_dir_format self')) FORMAT_NAME in
    let dir_off := PyStr.find (_dir_format self') FORMAT_NAME in
    subtree (fs_root fs) loc = Some (Dir es)
    /\ 0 <= root_off /\ 0 <= dir_off
    /\ _root_lead self' = replicate (Z.to_nat root_off) 32%N
    /\ _dir_lead self' = replicate (Z.to_nat dir_off) 32%N
    /\ build_tree fs (Some s) fl df ff self
       = (Ok (PyStr.join [10%N]
                (root_line self' loc
                 :: map (fun e =>
                           _root_lead self'
                           ++ flat_map
                                (fun last : bool =>
                                   (if last then [32%N; 32%N]
                                    else [9474%N; 32%N])
                                   ++ _dir_lead self')
                                (e_last e)
                           ++ (if e_index e <? e_count e - 1
                               then CONNECTOR_TEE else CONNECTOR_ELL)
                           ++ rep_name self' (e_siblings e) (e_name e))
                        (trace (recursion_bound fs) self' loc es []))),
          self').
Proof.
  intros Hwf Hd.
  destruct (build_tree_valid fs Hwf s fl df ff self Hd) as (es & Hes & E).
  cbv zeta in E.
  set (cfg := configured fs (resolve fs (Path s)) (default [] fl) df ff)
    in *.
  set (t := root_line cfg _ :: lines _ cfg _ es []) in *.
  exists es, (set_tree t cfg). cbv zeta.
  split; [exact Hes|]. rewrite E. clear E.
  change (_dir_format (set_tree t cfg)) with (_dir_format cfg).
  assert (Hc : PyStr.contains FORMAT_NAME (_dir_format cfg) = true).
  { unfold cfg, configured. cbn [_dir_format]. unfold effective_dir.
    rewrite format_ok_chosen. apply chosen_format_contains. }
  split; [now apply contains_find, contains_lstrip|].
  split; [now apply contains_find|].
  split; [reflexivity|]. split; [reflexivity|].
  rewrite trace_set_tree.
  match goal with
  | |- context [map ?f (trace ?n cfg ?l es [])] =>
      change (map f (trace n cfg l es []))
        with (map (render cfg) (trace n cfg l es []))
  end.
  now rewrite <- (lines_trace (recursion_bound fs) cfg _ es []).
Qed.

Lemma C8_leads_and_prefix_witness :
  exists es self',
    subtree (fs_root Examples.fs) [lit "R"] = Some (Dir es)
    /\ 0 <= PyStr.find (PyStr.lstrip (_dir_format self')) FORMAT_NAME
    /\ 0 <= PyStr.find (_dir_format self') FORMAT_NAME
    /\ _root_lead self'
       = replicate
           (Z.to_nat
              (PyStr.find (PyStr.lstrip (_dir_format self')) FORMAT_NAME))
           32%N
    /\ _dir_lead self'
       = replicate (Z.to_nat (PyStr.find (_dir_format self') FORMAT_NAME))
                   32%N.
Proof.
  destruct (C8_leads_and_prefix Examples.fs [] None None None __init__
              eq_refl eq_refl)
    as (es & self' & H1 & H2 & H3 & H4 & H5 & _).
  exists es, self'. repeat split; assumption.
Defined.

(** Only the paths below a directory matter to its lines. *)
Lemma lines_filter_ext fuel : forall self flt1 flt2 loc es prefix,
  (forall rest, rest <> [] ->
     mkabs (loc ++ rest) ∈ flt1 <-> mkabs (loc ++ rest) ∈ flt2) ->
  lines fuel (set_filter_list flt1 self) loc es prefix
  = lines fuel (set_filter_list flt2 self) loc es prefix.
Proof.
  induction fuel as [|fuel IH]; intros self flt1 flt2 loc es prefix Hflt;
    [reflexivity|].
  cbn [lines].
  assert (Hs : survivors (set_filter_list flt1 self) loc es
               = survivors (set_filter_list flt2 self) loc es).
  { unfold survivors. cbn [_filter_list _sort_order set_filter_list].
    apply list_filter_iff. intros nm. now rewrite (Hflt [nm]). }
  rewrite Hs. apply flat_map_ext. intros [i nm]. cbn [fst snd]. f_equal.
  destruct (entry nm es) as [[| |es']|]; try reflexivity.
  apply IH. intros rest Hrest. rewrite <- !app_assoc. now apply Hflt.
Qed.

Lemma configured_filter_list fs start fl df ff :
  configured fs start fl df ff
  = set_filter_list
      (map (fun e => sanitize_item fs start (Path e)) fl)
      (configured fs start [] df ff).
Proof. reflexivity. Qed.

(** C10. For a valid start directory the root's line is always the first
    line and the root's children are always enumerated: the filter is
    tested against the paths below the root only, so the entries of the
    filter list that resolve to the start directory itself can be left
    out without any change to the result. *)
Theorem C10_root_is_never_filtered fs s fl df ff self :
  wf_node (fs_root fs) = true ->
  is_dir fs (Path s) = true ->
  let start := resolve fs (Path s) in
  let cfg := configured fs start fl df ff in
  let below_root :=
    filter (fun e => sanitize_item fs start (Path e) <> start) fl in
  (exists es,
      subtree (fs_root fs) (parts start) = Some (Dir es)
      /\ (build_tree fs (Some s) (Some fl) df ff self).1
         = Ok (PyStr.join [10%N]
                 (root_line cfg (parts start)
                  :: lines (recursion_bound fs) cfg (parts start) es [])))
  /\ (build_tree fs (Some s) (Some fl) df ff self).1
     = (build_tree fs (Some s) (Some below_root) df ff self).1.
Proof.
  intros Hwf Hd start cfg below_root.
  destruct (build_tree_valid fs Hwf s (Some fl) df ff self Hd)
    as (es & Hes & E).
  destruct (build_tree_valid fs Hwf s (Some below_root) df ff self Hd)
    as (es' & Hes' & E').
  assert (es' = es) as -> by congruence.
  cbv zeta in E, E'. rewrite E, E'. cbn [fst]. split.
  - exists es. split; [assumption|reflexivity].
  - do 3 f_equal. cbn [default].
    rewrite (configured_filter_list fs _ fl),
            (configured_filter_list fs _ below_root).
    apply lines_filter_ext. intros rest Hrest. fold start.
    assert (Hne : mkabs (parts start ++ rest) <> start).
    { intros Heq. apply (f_equal parts) in Heq. cbn [parts mkabs] in Heq.
      rewrite <- (app_nil_r (parts start)) in Heq at 2.
      apply app_inv_head in Heq. contradiction. }
    rewrite !list_elem_of_fmap. unfold below_root.
    split; intros (e & He & Hin); exists e; split; try assumption.
    + apply list_elem_of_filter. split; [congruence|assumption].
    + now apply list_elem_of_filter in Hin.
Qed.

Lemma C10_root_is_never_filtered_witness :
  (build_tree Examples.fs (Some []) (Some [lit "."; lit "/R"]) None None
              __init__).1
  = (build_tree Examples.fs (Some []) (Some []) None None __init__).1.
Proof.
  apply (C10_root_is_never_filtered Examples.fs []
           [lit "."; lit "/R"] None None __init__);
    reflexivity.
Defined.

(** *** Filtering commutes with the stable sort *)

Section SortFilter.
Context {K A : Type} `{PyOrdLaws K}.
Variables (key : A -> K) (P : A -> Prop).
Context `{forall x, Decision (P x)}.

Lemma py_lt_asym (a b : K) : py_lt a b = true -> py_lt b a = false.
Proof.
  intros Hab. destruct (py_lt b a) eqn:Hba; [|reflexivity].
  pose proof (py_lt_trans _ _ _ Hab Hba) as E.
  now rewrite py_lt_irrefl in E.
Qed.

Lemma sort_key_key_le l : StronglySorted (key_le key) (sort_key key l).
Proof.
  eapply StronglySorted_weaken;
    [|apply (sort_key_sorted key (fun _ _ => True)),
        StronglySorted_True].
  intros a b [Hlt|[Heq _]]; unfold key_le.
  - now apply py_lt_asym.
  - rewrite Heq. apply py_lt_irrefl.
Qed.

Lemma insert_key_front x l :
  Forall (fun z => py_lt (key z) (key x) = false) l ->
  insert_key key x l = x :: l.
Proof.
  destruct l as [|y l]; [reflexivity|]. intros Hl.
  apply Forall_cons in Hl as [Hy _]. simpl. now rewrite Hy.
Qed.

Lemma insert_key_filter_out x l :
  ~ P x -> filter P (insert_key key x l) = filter P l.
Proof.
  intros Hx. induction l as [|y l IH]; simpl.
  - now rewrite filter_cons_False.
  - destruct (py_lt (key y) (key x)).
    + rewrite !filter_cons, IH. reflexivity.
    + now rewrite (filter_cons_False _ x) by assumption.
Qed.

Lemma insert_key_filter_in x l :
  P x -> StronglySorted (key_le key) l ->
  filter P (insert_key key x l) = insert_key key x (filter P l).
Proof.
  intros Hx. induction l as [|y l IH]; intros Hs; simpl.
  - rewrite filter_cons_True by assumption. reflexivity.
  - apply StronglySorted_inv in Hs as [Hs Hy].
    destruct (py_lt (key y) (key x)) eqn:Hyx.
    + rewrite !filter_cons, IH by assumption.
      destruct (decide (P y)); [|reflexivity]. simpl. now rewrite Hyx.
    + rewrite (filter_cons_True _ x) by assumption.
      symmetry. apply insert_key_front.
      apply Forall_forall. intros z Hz.
      apply list_elem_of_filter in Hz as [_ Hz].
      apply elem_of_cons in Hz as [->|Hz]; [assumption|].
      rewrite Forall_forall in Hy. specialize (Hy z Hz).
      unfold key_le in Hy.
      destruct (py_lt (key z) (key x)) eqn:Hzx; [|reflexivity].
      destruct (py_lt (key x) (key y)) eqn:Hxy.
      * pose proof (py_lt_trans _ _ _ Hzx Hxy). congruence.
      * pose proof (py_lt_connex _ _ Hxy Hyx) as E. rewrite E in Hzx.
        congruence.
Qed.

Lemma sort_key_filter l :
  filter P (sort_key key l) = sort_key key (filter P l).
Proof.
  induction l as [|x l IH]; [reflexivity|]. simpl sort_key.
  rewrite filter_cons. destruct (decide (P x)).
  - simpl. rewrite <- IH. apply insert_key_filter_in; [assumption|].
    apply sort_key_key_le.
  - rewrite <- IH. now apply insert_key_filter_out.
Qed.

End SortFilter.

Lemma flat_map_ext_elem_of {A B} (f g : A -> list B) l :
  (forall x, x ∈ l -> f x = g x) -> flat_map f l = flat_map g l.
Proof.
  induction l as [|x l IH]; intros Hfg; [reflexivity|]. simpl.
  rewrite (Hfg x) by apply list_elem_of_here.
  f_equal. apply IH. intros y Hy. apply Hfg. now apply list_elem_of_further.
Qed.

Lemma enumerate_elem_of {A} (l : list A) : forall (k i : Z) (x : A),
  (i, x) ∈ enumerate k l -> x ∈ l.
Proof.
  induction l as [|y l IH]; intros k i x; simpl.
  - intros E. now apply elem_of_nil in E.
  - intros [[= _ ->]|E]%elem_of_cons; [apply list_elem_of_here|].
    apply list_elem_of_further. eauto.
Qed.

Lemma filter_all {A} (P : A -> Prop) `{forall x, Decision (P x)}
    (l : list A) :
  (forall x, x ∈ l -> P x) -> filter P l = l.
Proof.
  induction l as [|x l IH]; intros HP; [reflexivity|].
  rewrite filter_cons_True by (apply HP, list_elem_of_here).
  f_equal. apply IH. intros y Hy. apply HP. now apply list_elem_of_further.
Qed.

(** *** The listing of a pruned directory *)

Lemma prune_Dir flt loc es :
  prune flt loc (Dir es) = Dir (pruned_entries flt loc es).
Proof. reflexivity. Qed.

Lemma entry_pruned flt loc es nm :
  entry nm (pruned_entries flt loc es)
  = if decide (kept flt loc nm)
    then prune flt (loc ++ [nm]) <$> entry nm es
    else None.
Proof.
  unfold pruned_entries, kept.
  induction es as [|[nm' n] es IH]; simpl.
  - now destruct (decide _).
  - rewrite filter_cons. simpl.
    destruct (decide (nm' = nm)) as [->|Hne].
    + destruct (decide (mkabs (loc ++ [nm]) ∉ flt)) as [Hk|Hk].
      * simpl. now destruct (decide (nm = nm)).
      * rewrite IH. now destruct (decide (mkabs (loc ++ [nm]) ∉ flt)).
    + destruct (decide (mkabs (loc ++ [nm']) ∉ flt)); [|assumption].
      simpl. now destruct (decide (nm' = nm)).
Qed.

Lemma names_pruned flt loc es :
  map fst (pruned_entries flt loc es) = filter (kept flt loc) (map fst es).
Proof.
  unfold pruned_entries, kept.
  induction es as [|[nm n] es IH]; [reflexivity|]. simpl.
  rewrite !filter_cons. simpl.
  destruct (decide (mkabs (loc ++ [nm]) ∉ flt)); simpl; now rewrite IH.
Qed.

Lemma is_file_node_prune flt loc o :
  is_file_node (prune flt loc <$> o) = is_file_node o.
Proof. now destruct o as [[| |?]|]. Qed.

Lemma is_dir_node_prune flt loc o :
  is_dir_node (prune flt loc <$> o) = is_dir_node o.
Proof. now destruct o as [[| |?]|]. Qed.

Lemma ordered_pruned so flt loc es :
  ordered so (pruned_entries flt loc es)
  = filter (kept flt loc) (ordered so es).
Proof.
  unfold ordered. rewrite names_pruned.
  rewrite (sort_key_filter (fun nm => is_file_node (entry nm es))).
  rewrite (sort_key_filter (rank so)).
  rewrite (sort_key_filter PyStr.lower).
  apply sort_key_ext. intros a b Ha Hb.
  apply sort_key_elem_of, sort_key_elem_of in Ha.
  apply sort_key_elem_of, sort_key_elem_of in Hb.
  apply list_elem_of_filter in Ha as [Ha _].
  apply list_elem_of_filter in Hb as [Hb _].
  rewrite !entry_pruned.
  destruct (decide (kept flt loc a)); [|contradiction].
  destruct (decide (kept flt loc b)); [|contradiction].
  now rewrite !is_file_node_prune.
Qed.

Lemma survivors_pruned self loc es :
  survivors (set_filter_list [] self) loc
            (pruned_entries (_filter_list self) loc es)
  = survivors self loc es.
Proof.
  unfold survivors. cbn [_filter_list _sort_order set_filter_list].
  rewrite filter_all; [apply ordered_pruned|].
  intros nm _. apply not_elem_of_nil.
Qed.

(** The filtered lines are the lines of the pruned directory. *)
Lemma lines_prune fuel : forall fuel' self loc es prefix,
  (height (Dir es) <= fuel)%nat ->
  (height (prune (_filter_list self) loc (Dir es)) <= fuel')%nat ->
  lines fuel self loc es prefix
  = lines fuel' (set_filter_list [] self) loc
          (pruned_entries (_filter_list self) loc es) prefix.
Proof.
  induction fuel as [|fuel IH]; intros fuel' self loc es prefix H1 H2.
  { simpl in H1. lia. }
  destruct fuel' as [|fuel']; [simpl in H2; lia|].
  cbn [lines]. rewrite survivors_pruned.
  apply flat_map_ext_elem_of. intros [i nm] Hin. cbn [fst snd].
  apply enumerate_elem_of in Hin.
  apply list_elem_of_filter in Hin as [Hk _]. fold (kept (_filter_list self) loc nm) in Hk.
  unfold rep_name. rewrite entry_pruned.
  destruct (decide (kept (_filter_list self) loc nm)); [|contradiction].
  rewrite is_dir_node_prune.
  cbn [_root_lead _dir_format _file_format _dir_lead set_filter_list].
  f_equal.
  destruct (entry nm es) as [[| |es']|] eqn:En; try reflexivity.
  cbn [fmap option_fmap option_map]. rewrite prune_Dir.
  apply (IH fuel' self (loc ++ [nm]) es').
  - apply entry_elem_of, height_entry in En. lia.
  - assert (Hn : entry nm (pruned_entries (_filter_list self) loc es)
                 = Some (prune (_filter_list self) (loc ++ [nm]) (Dir es'))).
    { rewrite entry_pruned, En.
      now destruct (decide (kept (_filter_list self) loc nm)). }
    apply entry_elem_of, height_entry in Hn. rewrite prune_Dir in H2. lia.
Qed.

(** Filter entries that name nothing below the directory are inert. *)
Lemma lines_filter_inert fuel : forall self loc es prefix,
  (forall rest, rest <> [] -> mkabs (loc ++ rest) ∈ _filter_list self ->
                subtree (Dir es) rest = None) ->
  lines fuel self loc es prefix
  = lines fuel (set_filter_list [] self) loc es prefix.
Proof.
  induction fuel as [|fuel IH]; intros self loc es prefix Hflt;
    [reflexivity|].
  cbn [lines].
  assert (Hs : survivors self loc es
               = survivors (set_filter_list [] self) loc es).
  { unfold survivors. cbn [_filter_list _sort_order set_filter_list].
    rewrite !filter_all; [reflexivity| |].
    - intros nm _. apply not_elem_of_nil.
    - intros nm Hnm Hin. apply ordered_names in Hnm.
      destruct (entry_is_Some _ _ Hnm) as [n En].
      specialize (Hflt [nm] ltac:(easy) Hin). simpl in Hflt.
      now rewrite En in Hflt. }
  rewrite <- Hs. apply flat_map_ext. intros [i nm]. cbn [fst snd]. f_equal.
  destruct (entry nm es) as [[| |es']|] eqn:En; try reflexivity.
  apply IH. intros rest Hrest Hin. rewrite <- app_assoc in Hin.
  specialize (Hflt (nm :: rest) ltac:(easy) Hin). simpl in Hflt.
  now rewrite En in Hflt.
Qed.

Lemma stat_Dir_resolve fs p es :
  stat fs p = Some (Dir es) ->
  is_dir fs p = true
  /\ subtree (fs_root fs) (parts (resolve fs p)) = Some (Dir es).
Proof.
  intros Hs. assert (Hd : is_dir fs p = true)
    by (unfold is_dir; now rewrite Hs).
  split; [assumption|].
  destruct (is_dir_resolve fs p Hd) as (es' & Hsub & Hs'). congruence.
Qed.

(** C3, as the code has it.  The filter is membership of the resolved
    path: the output for a filter list is the output, without a filter,
    of the directory from which every entry whose path is in the resolved
    list has been taken out, at every depth, with all that is below it.
    So a filtered file loses exactly its line, a filtered directory its
    line and the lines of its descendants, and every other entry keeps a
    line, rendered among the survivors.  Filter entries that resolve to
    no existing path below the start directory change nothing, and no
    filter list makes the build fail. *)
Theorem C3_filter_is_exact_path_membership fs s fl df ff self es :
  wf_node (fs_root fs) = true ->
  stat fs (Path s) = Some (Dir es) ->
  let start := resolve fs (Path s) in
  let flt := map (fun e => sanitize_item fs start (Path e)) fl in
  (forall fs' self',
      wf_node (fs_root fs') = true ->
      resolve fs' (Path s) = start ->
      stat fs' (Path s) = Some (prune flt (parts start) (Dir es)) ->
      (build_tree fs (Some s) (Some fl) df ff self).1
      = (build_tree fs' (Some s) None df ff self').1)
  /\ ((forall rest, rest <> [] -> mkabs (parts start ++ rest) ∈ flt ->
                    subtree (Dir es) rest = None) ->
      (build_tree fs (Some s) (Some fl) df ff self).1
      = (build_tree fs (Some s) None df ff self).1)
  /\ exists out, (build_tree fs (Some s) (Some fl) df ff self).1 = Ok out.
Proof.
  intros Hwf Hs start flt.
  destruct (stat_Dir_resolve fs _ es Hs) as [Hd Hsub].
  destruct (build_tree_valid fs Hwf s (Some fl) df ff self Hd)
    as (es1 & Hes1 & E).
  assert (es1 = es) as -> by congruence.
  cbv zeta in E. rewrite E. cbn [fst default]. clear E. fold start.
  split; [|split].
  - intros fs' self' Hwf' Hres' Hs'. rewrite prune_Dir in Hs'.
    destruct (stat_Dir_resolve fs' _ _ Hs') as [Hd' Hsub'].
    destruct (build_tree_valid fs' Hwf' s None df ff self' Hd')
      as (es2 & Hes2 & E').
    assert (es2 = pruned_entries flt (parts start) es) as -> by congruence.
    cbv zeta in E'. rewrite E'. cbn [fst default]. clear E'.
    rewrite Hres' in *. do 3 f_equal.
    apply (lines_prune (recursion_bound fs) (recursion_bound fs')
             (configured fs start fl df ff)).
    + apply (height_subtree _ _ _ Hsub).
    + apply (height_subtree _ _ _ Hsub').
  - intros Hinert.
    destruct (build_tree_valid fs Hwf s None df ff self Hd)
      as (es2 & Hes2 & E').
    assert (es2 = es) as -> by congruence.
    cbv zeta in E'. rewrite E'. cbn [fst default]. clear E'. fold start.
    do 3 f_equal.
    now apply (lines_filter_inert (recursion_bound fs)
                 (configured fs start fl df ff)).
  - eauto.
Qed.

Lemma C3_filter_is_exact_path_membership_witness :
  (build_tree Examples.fs (Some []) (Some [lit "Foo"]) None None
              __init__).1
  = (build_tree Examples.fs_without_Foo (Some []) None None None
                __init__).1.
Proof.
  apply (proj1 (C3_filter_is_exact_path_membership Examples.fs []
                  [lit "Foo"] None None __init__
                  [(lit "b.txt", File);
                   (lit "Foo", Dir [(lit "bar.txt", File)]);
                   (lit "a.txt", File)] eq_refl eq_refl)
               Examples.fs_without_Foo __init__);
    reflexivity.
Defined.

(** C3 as stated fails where it says that the line of every other entry
    is unaffected: [/R] holds the files [a.txt] and [b.txt]; without a
    filter the line of [a.txt] has the tee connector, and with [b.txt]
    filtered that line is not in the tree any more (its connector is the
    elbow). *)
Lemma C3_counterexample :
  stat Examples.fs_without_Foo
       (sanitize_item Examples.fs_without_Foo (mkabs [lit "R"])
                      (Path (lit "b.txt")))
  = Some File
  /\ ~ (forall line,
          line ∈ _tree (build_tree Examples.fs_without_Foo (Some []) None
                                   None None __init__).2 ->
          line <> CONNECTOR_ELL ++ lit " b.txt" ->
          line ∈ _tree (build_tree Examples.fs_without_Foo (Some [])
                                   (Some [lit "b.txt"]) None None
                                   __init__).2).
Proof.
  split; [reflexivity|]. intros H.
  specialize (H (CONNECTOR_TEE ++ lit " a.txt")).
  assert (Hin : CONNECTOR_TEE ++ lit " a.txt"
                ∈ _tree (build_tree Examples.fs_without_Foo (Some [])
                                    (Some [lit "b.txt"]) None None
                                    __init__).2).
  { apply H; [|discriminate].
    apply list_elem_of_further, list_elem_of_here. }
  vm_compute in Hin.
  repeat (apply elem_of_cons in Hin as [Hin|Hin]; [discriminate Hin|]).
  now apply elem_of_nil in Hin.
Qed.

End Claims.

(** ** Further properties of the code *)

Section Extras.
Import pathlib CNTree Model.

Lemma survivors_perm self loc es :
  survivors self loc es
  ≡ₚ filter (kept (_filter_list self) loc) (map fst es).
Proof.
  unfold survivors, ordered, kept.
  apply filter_Permutation.
  rewrite (sort_key_perm (fun nm => is_file_node (entry nm es))).
  rewrite (sort_key_perm (rank (_sort_order self))).
  apply (sort_key_perm PyStr.lower).
Qed.

(** The blocks of lines that [_add_contents] adds: one for each
    survivor, in order, opened by the survivor's own line. *)
Lemma add_contents_blocks fs fuel loc es prefix self :
  wf_node (fs_root fs) = true ->
  subtree (fs_root fs) loc = Some (Dir es) ->
  (height (Dir es) <= fuel)%nat ->
  exists blocks self',
    _add_contents fs fuel (mkabs loc) prefix self = (Ok tt, self')
    /\ _tree self' = _tree self ++ concat blocks
    /\ forall i nm, survivors self loc es !! i = Some nm ->
         exists rest,
           blocks !! i
           = Some ((_root_lead self ++ prefix
                      ++ connector (Z.of_nat i)
                           (Z.of_nat (length (survivors self loc es)))
                      ++ rep_name self es nm) :: rest).
Proof.
  intros Hwf Hdir Hh.
  pose proof (add_contents_lines fs Hwf fuel self loc es prefix
                (_tree self) Hdir Hh) as E.
  rewrite set_tree_tree in E.
  destruct fuel as [|fuel]; [simpl in Hh; lia|].
  cbn [lines] in E. rewrite flat_map_concat_map in E.
  eexists _, _. split; [exact E|]. split; [reflexivity|].
  intros i nm Hi. rewrite list_lookup_fmap, enumerate_lookup, Hi.
  simpl. eauto.
Qed.

(** X1. An entry that is neither a regular file nor a directory (a
    socket, a FIFO, a broken link) is sorted with the directories: its
    block of lines is added before the block of every regular file of the
    same directory, whatever the names; and its line is rendered with the
    file format. *)
Theorem X1_other_entries_sort_with_directories
    fs fuel loc es prefix self a b :
  wf_node (fs_root fs) = true ->
  subtree (fs_root fs) loc = Some (Dir es) ->
  (height (Dir es) <= fuel)%nat ->
  _sort_order self = ∅ ->
  entry a es = Some Other -> entry b es = Some File ->
  bool_decide (mkabs (loc ++ [a]) ∉ _filter_list self) = true ->
  bool_decide (mkabs (loc ++ [b]) ∉ _filter_list self) = true ->
  exists blocks self1 self2 i j,
    _get_sort_order self = (Ok tt, self1)
    /\ _add_contents fs fuel (mkabs loc) prefix self1 = (Ok tt, self2)
    /\ _tree self2 = _tree self ++ concat blocks
    /\ (i < j)%nat
    /\ (exists rest,
          blocks !! i
          = Some ((_root_lead self ++ prefix ++ CONNECTOR_TEE
                     ++ PyStr.replace (_file_format self) FORMAT_NAME a)
                  :: rest))
    /\ (exists conn rest,
          blocks !! j
          = Some ((_root_lead self ++ prefix ++ conn
                     ++ PyStr.replace (_file_format self) FORMAT_NAME b)
                  :: rest)).
Proof.
  intros Hwf Hdir Hh Hso Ha Hb Hka Hkb.
  apply bool_decide_eq_true in Hka, Hkb.
  set (self1 := set_sort_order sort_table self).
  destruct (add_contents_blocks fs fuel loc es prefix self1 Hwf Hdir Hh)
    as (blocks & self2 & E & Ht & Hblocks).
  set (items := survivors self1 loc es) in *.
  assert (Hs : StronglySorted (precedes es) items).
  { apply StronglySorted_filter, ordered_sorted. }
  assert (Hin : forall nm n, entry nm es = Some n ->
                  mkabs (loc ++ [nm]) ∉ _filter_list self -> nm ∈ items).
  { intros nm n Hn Hk. unfold items.
    rewrite (survivors_perm self1 loc es).
    apply list_elem_of_filter. split; [exact Hk|].
    apply entry_elem_of in Hn. apply list_elem_of_fmap. now exists (nm, n). }
  apply (Hin a _ Ha), list_elem_of_lookup in Hka as [i Hi].
  apply (Hin b _ Hb), list_elem_of_lookup in Hkb as [j Hj].
  assert (Hij : (i < j)%nat).
  { destruct (Nat.lt_trichotomy i j) as [Hlt|[->|Hgt]]; [assumption| |].
    - congruence.
    - pose proof (StronglySorted_lookup _ _ Hs j i b a Hgt Hj Hi) as Hp.
      unfold precedes in Hp. rewrite Ha, Hb in Hp. simpl in Hp.
      destruct Hp as [[? _]|[? _]]; discriminate. }
  exists blocks, self1, self2, i, j.
  split; [now apply get_sort_order_ok|]. split; [exact E|].
  split; [exact Ht|]. split; [exact Hij|].
  destruct (Hblocks i a Hi) as [ra Hra].
  destruct (Hblocks j b Hj) as [rb Hrb].
  unfold rep_name in Hra, Hrb. rewrite Ha in Hra. rewrite Hb in Hrb.
  cbn [is_dir_node] in Hra, Hrb. split.
  - exists ra. rewrite Hra. do 4 f_equal. unfold connector.
    apply lookup_lt_Some in Hj. fold items.
    destruct (Z.ltb_spec (Z.of_nat i) (Z.of_nat (length items) - 1));
      [reflexivity|lia].
  - eexists _, rb. exact Hrb.
Qed.

Lemma X1_other_entries_sort_with_directories_witness :
  exists blocks self1 self2 i j,
    _get_sort_order __init__ = (Ok tt, self1)
    /\ _add_contents
         {| fs_root := Dir [(lit "a", File); (lit "z", Other)];
            fs_cwd := [] |} 1 (mkabs []) [] self1
       = (Ok tt, self2)
    /\ _tree self2 = _tree __init__ ++ concat blocks
    /\ (i < j)%nat
    /\ (exists rest,
          blocks !! i
          = Some ((_root_lead __init__ ++ [] ++ CONNECTOR_TEE
                     ++ PyStr.replace (_file_format __init__) FORMAT_NAME
                          (lit "z"))
                  :: rest))
    /\ (exists conn rest,
          blocks !! j
          = Some ((_root_lead __init__ ++ [] ++ conn
                     ++ PyStr.replace (_file_format __init__) FORMAT_NAME
                          (lit "a"))
                  :: rest)).
Proof.
  apply (X1_other_entries_sort_with_directories
           {| fs_root := Dir [(lit "a", File); (lit "z", Other)];
              fs_cwd := [] |} 1 [] [(lit "a", File); (lit "z", Other)]
           [] __init__ (lit "z") (lit "a"));
    reflexivity.
Defined.

Lemma subtree_no_pardir n : forall loc m,
  wf_node n = true -> subtree n loc = Some m -> pardir ∉ loc.
Proof.
  intros loc. revert n.
  induction loc as [|c loc IH]; intros n m Hwf Hm; [apply not_elem_of_nil|].
  simpl in Hm. destruct n as [| |es]; try easy.
  destruct (entry c es) as [n'|] eqn:E; [|easy].
  apply entry_elem_of in E. destruct (wf_entry _ _ _ Hwf E) as (_ & Hc & Hn).
  apply not_elem_of_cons. split; [congruence|]. now apply (IH n' m).
Qed.

(** X2. When [_sanitize_start_dir] succeeds, the start directory it
    stores is absolute, holds no [..] part, and names the very directory
    the parameter names; no other attribute changes. *)
Theorem X2_start_dir_is_resolved fs s self :
  wf_node (fs_root fs) = true ->
  is_dir fs (Path s) = true ->
  exists p,
    _sanitize_start_dir fs (Some s) self
    = (Ok tt, set_start_dir (Some p) self)
    /\ is_absolute p = true
    /\ (pardir ∉ parts p)
    /\ stat fs p = stat fs (Path s)
    /\ is_dir fs p = true.
Proof.
  intros Hwf Hd. exists (resolve fs (Path s)).
  split; [now apply sanitize_start_dir_valid|].
  destruct (is_dir_resolve fs _ Hd) as (es & Hsub & Hs).
  assert (Hst : stat fs (resolve fs (Path s)) = Some (Dir es))
    by apply (stat_abs fs Hwf _ _ Hsub).
  split; [reflexivity|]. split; [|split].
  - now apply (subtree_no_pardir _ _ _ Hwf Hsub).
  - congruence.
  - unfold is_dir. now rewrite Hst.
Qed.

Lemma X2_start_dir_is_resolved_witness :
  exists p,
    _sanitize_start_dir Examples.fs (Some (lit "Foo/../Foo")) __init__
    = (Ok tt, set_start_dir (Some p) __init__)
    /\ is_absolute p = true
    /\ (pardir ∉ parts p)
    /\ stat Examples.fs p = stat Examples.fs (Path (lit "Foo/../Foo"))
    /\ is_dir Examples.fs p = true.
Proof.
  apply (X2_start_dir_is_resolved Examples.fs (lit "Foo/../Foo") __init__);
    reflexivity.
Defined.

Lemma sanitize_start_dir_frame fs sd self r self' :
  _sanitize_start_dir fs sd self = (r, self') ->
  set_start_dir None self' = set_start_dir None self.
Proof.
  unfold _sanitize_start_dir. destruct sd as [s|].
  - unfold bind, modify, get, raise. simpl.
    destruct (is_dir fs (Path s)); simpl; now intros [= _ <-].
  - unfold raise. now intros [= _ <-].
Qed.

Lemma sanitize_start_dir_raise fs sd self e self' :
  _sanitize_start_dir fs sd self = (Raise e, self') ->
  _start_dir self'
  = match sd with Some s => Some (Path s) | None => _start_dir self end.
Proof.
  unfold _sanitize_start_dir. destruct sd as [s|].
  - unfold bind, modify, get, raise. simpl.
    destruct (is_dir fs (Path s)); simpl; [discriminate|].
    now intros [= _ <-].
  - unfold raise. now intros [= _ <-].
Qed.

(** X3. A build that fails on its start directory raises the error with
    the message about that directory and leaves nothing of an earlier
    build in the instance: the lines and the filter list are empty, the
    formats are the built-in ones, and the leads and the sort table are
    empty.  The start directory kept is the parameter as a path, not
    resolved ([None] where the parameter is [None]). *)
Theorem X3_failed_build_leaves_no_stale_state fs sd fl df ff self :
  match sd with Some s => is_dir fs (Path s) | None => false end = false ->
  exists self',
    build_tree fs sd fl df ff self
    = (Raise (OSError (ERR_NOT_A_DIR sd)), self')
    /\ _tree self' = [] /\ _filter_list self' = []
    /\ _dir_format self' = FORMAT_DIR /\ _file_format self' = FORMAT_FILE
    /\ _root_lead self' = [] /\ _dir_lead self' = []
    /\ _sort_order self' = ∅
    /\ _start_dir self' = option_map Path sd.
Proof.
  intros Hd. rewrite build_tree_reset. unfold build_tree.
  do 8 (unfold bind at 1; unfold modify at 1).
  unfold bind at 1, reraise_OSError at 1.
  destruct (sanitize_start_dir_invalid fs sd
              (set_tree [] (set_sort_order ∅ (set_dir_lead []
                 (set_root_lead [] (set_file_format FORMAT_FILE
                    (set_dir_format FORMAT_DIR (set_filter_list []
                       (set_start_dir None __init__))))))))
              Hd) as [self' E].
  rewrite E. exists self'. split; [reflexivity|].
  apply sanitize_start_dir_raise in E as Hsd.
  assert (Hst : _start_dir self' = option_map Path sd)
    by (rewrite Hsd; now destruct sd).
  apply sanitize_start_dir_frame in E.
  apply (f_equal _tree) in E as Ht.
  apply (f_equal _filter_list) in E as Hf.
  apply (f_equal _dir_format) in E as Hdf.
  apply (f_equal _file_format) in E as Hff.
  apply (f_equal _root_lead) in E as Hrl.
  apply (f_equal _dir_lead) in E as Hdl.
  apply (f_equal _sort_order) in E as Hso.
  now repeat split.
Qed.

Lemma X3_failed_build_leaves_no_stale_state_witness :
  exists self',
    build_tree Examples.fs (Some (lit "a.txt")) None None None
      (build_tree Examples.fs (Some []) None None None __init__).2
    = (Raise (OSError (ERR_NOT_A_DIR (Some (lit "a.txt")))), self')
    /\ _tree self' = [] /\ _filter_list self' = []
    /\ _dir_format self' = FORMAT_DIR /\ _file_format self' = FORMAT_FILE
    /\ _root_lead self' = [] /\ _dir_lead self' = []
    /\ _sort_order self' = ∅
    /\ _start_dir self' = option_map Path (Some (lit "a.txt")).
Proof.
  apply (X3_failed_build_leaves_no_stale_state Examples.fs
           (Some (lit "a.txt")) None None None).
  reflexivity.
Defined.

Lemma entry_NoDup es nm n :
  NoDup (map fst es) -> (nm, n) ∈ es -> entry nm es = Some n.
Proof.
  induction es as [|[nm' n'] es IH]; simpl; intros Hnd Hin.
  - now apply elem_of_nil in Hin.
  - apply NoDup_cons in Hnd as [Hnot Hnd].
    apply elem_of_cons in Hin as [[= -> ->]|Hin].
    + now destruct (decide (nm' = nm')).
    + destruct (decide (nm' = nm)) as [->|_]; [|now apply IH].
      exfalso. apply Hnot. apply list_elem_of_fmap. now exists (nm, n).
Qed.

Lemma length_flat_map_enumerate {A B} (F : Z * A -> list B) (h : A -> nat)
    (l : list A) : forall k : Z,
  (forall i x, x ∈ l -> length (F (i, x)) = h x) ->
  length (flat_map F (enumerate k l)) = sum_list (map h l).
Proof.
  induction l as [|x l IH]; intros k HF; [reflexivity|]. simpl.
  rewrite length_app, (HF k x) by apply list_elem_of_here.
  rewrite (IH (k + 1)); [reflexivity|].
  intros i y Hy. apply HF. now apply list_elem_of_further.
Qed.

Lemma nodup_names_entry es nm n :
  nodup_names (Dir es) = true -> (nm, n) ∈ es -> nodup_names n = true.
Proof.
  simpl. rewrite andb_true_iff, forallb_forall. intros [_ H] Hin.
  apply list_elem_of_In in Hin. apply (H _ Hin).
Qed.

(** Without a filter the lines below a directory are as many as its
    entries, at every depth. *)
Lemma lines_length fuel : forall self loc es prefix,
  _filter_list self = [] ->
  nodup_names (Dir es) = true ->
  (height (Dir es) <= fuel)%nat ->
  length (lines fuel self loc es prefix) = entries_count (Dir es).
Proof.
  induction fuel as [|fuel IH]; intros self loc es prefix Hf Hnd Hh.
  { simpl in Hh. lia. }
  cbn [lines].
  pose proof Hnd as Hnd'. simpl in Hnd'.
  apply andb_true_iff in Hnd' as [Hnames _].
  apply bool_decide_eq_true in Hnames.
  rewrite (length_flat_map_enumerate _
             (fun nm => S (match entry nm es with
                           | Some n => entries_count n
                           | None => 0%nat
                           end))).
  - rewrite survivors_perm, Hf.
    rewrite filter_all by (intros nm _; apply not_elem_of_nil).
    cbn [entries_count]. rewrite map_map. f_equal.
    apply map_ext_in. intros [nm n] Hin. cbn [fst snd].
    apply list_elem_of_In in Hin. now rewrite (entry_NoDup _ _ _ Hnames Hin).
  - intros i nm Hnm. cbn [fst snd length]. f_equal.
    destruct (entry nm es) as [[| |es']|] eqn:En; try reflexivity.
    apply entry_elem_of in En.
    apply IH; [assumption|now apply (nodup_names_entry es nm)|].
    apply height_entry in En. lia.
Qed.

(** X4. Without a filter, and where no directory lists a name twice, the
    tree has one line for the start directory and exactly one line for
    every file, directory or other entry below it, at every depth; the
    string returned is these lines joined by newlines. *)
Theorem X4_one_line_per_entry fs s fl df ff self es :
  wf_node (fs_root fs) = true ->
  stat fs (Path s) = Some (Dir es) ->
  nodup_names (Dir es) = true ->
  default [] fl = [] ->
  exists out self',
    build_tree fs (Some s) fl df ff self = (Ok out, self')
    /\ length (_tree self') = S (entries_count (Dir es))
    /\ out = PyStr.join [10%N] (_tree self').
Proof.
  intros Hwf Hs Hnd Hfl.
  destruct (stat_Dir_resolve fs _ es Hs) as [Hd Hsub].
  destruct (build_tree_valid fs Hwf s fl df ff self Hd) as (es' & Hes & E).
  assert (es' = es) as -> by congruence.
  cbv zeta in E. eexists _, _. split; [exact E|].
  split; [|reflexivity].
  cbn [_tree set_tree length]. f_equal.
  apply lines_length; [now rewrite Hfl|assumption|].
  apply (height_subtree _ _ _ Hsub).
Qed.

Lemma X4_one_line_per_entry_witness :
  exists out self',
    build_tree Examples.fs (Some []) None None None __init__
    = (Ok out, self')
    /\ length (_tree self') = 5%nat
    /\ out = PyStr.join [10%N] (_tree self').
Proof.
  apply (X4_one_line_per_entry Examples.fs [] None None None __init__
           [(lit "b.txt", File); (lit "Foo", Dir [(lit "bar.txt", File)]);
            (lit "a.txt", File)]);
    reflexivity.
Defined.

(** *** One placeholder in a format *)

Lemma startswith_app (a b : str) : PyStr.startswith a (a ++ b) = true.
Proof.
  induction a as [|x a IH]; [reflexivity|]. simpl.
  now rewrite N.eqb_refl, IH.
Qed.

Lemma startswith_NAME_cons c s :
  c <> 36%N -> PyStr.startswith FORMAT_NAME (c :: s) = false.
Proof.
  intros Hc. change FORMAT_NAME with (36%N :: lit "NAME").
  cbn [PyStr.startswith].
  destruct (N.eqb_spec 36 c) as [E|_]; [congruence|reflexivity].
Qed.

Lemma find_from_unfold i sub s :
  PyStr.find_from i sub s
  = if PyStr.startswith sub s then i
    else match s with
         | [] => -1
         | _ :: s' => PyStr.find_from (i + 1) sub s'
         end.
Proof. now destruct s. Qed.

Lemma find_from_placeholder pre post : forall i,
  36%N ∉ pre ->
  PyStr.find_from i FORMAT_NAME (pre ++ FORMAT_NAME ++ post)
  = i + Z.of_nat (length pre).
Proof.
  induction pre as [|c pre IH]; intros i Hpre.
  - change ([] ++ FORMAT_NAME ++ post) with (FORMAT_NAME ++ post).
    rewrite find_from_unfold, startswith_app. simpl. lia.
  - apply not_elem_of_cons in Hpre as [Hc Hpre].
    change ((c :: pre) ++ FORMAT_NAME ++ post)
      with (c :: (pre ++ FORMAT_NAME ++ post)).
    cbn [PyStr.find_from].
    rewrite startswith_NAME_cons by congruence.
    rewrite IH by assumption. cbn [length]. lia.
Qed.

Lemma replace_aux_skip old new (a s : str) :
  PyStr.replace_aux old new (length a) (a ++ s)
  = PyStr.replace_aux old new 0 s.
Proof. induction a as [|x a IH]; [reflexivity|]. simpl. exact IH. Qed.

Lemma replace_aux_no_placeholder new (s : str) :
  36%N ∉ s -> PyStr.replace_aux FORMAT_NAME new 0 s = s.
Proof.
  induction s as [|c s IH]; intros Hs; [reflexivity|].
  apply not_elem_of_cons in Hs as [Hc Hs].
  cbn [PyStr.replace_aux]. rewrite startswith_NAME_cons by congruence.
  now rewrite IH.
Qed.

Lemma replace_aux_at_placeholder new post :
  PyStr.replace_aux FORMAT_NAME new 0 (FORMAT_NAME ++ post)
  = new ++ PyStr.replace_aux FORMAT_NAME new 0 post.
Proof.
  pose proof (startswith_app FORMAT_NAME post) as H.
  change (FORMAT_NAME ++ post) with (36%N :: (lit "NAME" ++ post)) in *.
  cbn [PyStr.replace_aux]. rewrite H. f_equal.
Qed.

Lemma replace_placeholder pre post new :
  36%N ∉ pre -> 36%N ∉ post ->
  PyStr.replace (pre ++ FORMAT_NAME ++ post) FORMAT_NAME new
  = pre ++ new ++ post.
Proof.
  intros Hpre Hpost.
  change (PyStr.replace (pre ++ FORMAT_NAME ++ post) FORMAT_NAME new)
    with (PyStr.replace_aux FORMAT_NAME new 0
            (pre ++ FORMAT_NAME ++ post)).
  induction pre as [|c pre IH].
  - change ([] ++ FORMAT_NAME ++ post) with (FORMAT_NAME ++ post).
    rewrite replace_aux_at_placeholder.
    now rewrite replace_aux_no_placeholder.
  - apply not_elem_of_cons in Hpre as [Hc Hpre].
    change ((c :: pre) ++ FORMAT_NAME ++ post)
      with (c :: (pre ++ FORMAT_NAME ++ post)).
    cbn [PyStr.replace_aux].
    rewrite startswith_NAME_cons by congruence.
    now rewrite IH.
Qed.

Lemma no_dollar_spec (s : str) :
  forallb (fun c => negb (c =? 36)%N) s = true -> 36%N ∉ s.
Proof.
  intros H Hin. rewrite forallb_forall in H.
  apply list_elem_of_In, H in Hin. discriminate Hin.
Qed.

(** X5. Where the format in effect for an entry holds the placeholder
    once and no other dollar sign, the entry's line, as [_add_contents]
    adds it, is lead, prefix and connector followed by the format with the
    entry's name in the placeholder's place, verbatim, even if the name
    holds [$NAME] itself: only the format is scanned, never the name put
    in. *)
Theorem X5_name_is_inserted_verbatim
    fs fuel loc es prefix self nm n pre post :
  wf_node (fs_root fs) = true ->
  subtree (fs_root fs) loc = Some (Dir es) ->
  (height (Dir es) <= fuel)%nat ->
  entry nm es = Some n ->
  bool_decide (mkabs (loc ++ [nm]) ∉ _filter_list self) = true ->
  (if is_dir_node (Some n) then _dir_format self else _file_format self)
  = pre ++ FORMAT_NAME ++ post ->
  forallb (fun c => negb (c =? 36)%N) (pre ++ post) = true ->
  exists blocks self' i conn rest,
    _add_contents fs fuel (mkabs loc) prefix self = (Ok tt, self')
    /\ _tree self' = _tree self ++ concat blocks
    /\ conn ∈ [CONNECTOR_TEE; CONNECTOR_ELL]
    /\ blocks !! i
       = Some ((_root_lead self ++ prefix ++ conn ++ pre ++ nm ++ post)
               :: rest).
Proof.
  intros Hwf Hdir Hh Hn Hk Hfmt Hd.
  apply bool_decide_eq_true in Hk.
  rewrite forallb_app in Hd. apply andb_true_iff in Hd as [Hpre Hpost].
  apply no_dollar_spec in Hpre, Hpost.
  destruct (add_contents_blocks fs fuel loc es prefix self Hwf Hdir Hh)
    as (blocks & self' & E & Ht & Hblocks).
  assert (Hin : nm ∈ survivors self loc es).
  { rewrite (survivors_perm self loc es).
    apply list_elem_of_filter. split; [exact Hk|].
    apply entry_elem_of in Hn. apply list_elem_of_fmap. now exists (nm, n). }
  apply list_elem_of_lookup in Hin as [i Hi].
  destruct (Hblocks i nm Hi) as [rest Hrest].
  exists blocks, self', i,
    (connector (Z.of_nat i) (Z.of_nat (length (survivors self loc es)))),
    rest.
  split; [exact E|]. split; [exact Ht|]. split.
  - unfold connector.
    destruct (Z.of_nat i <? Z.of_nat (length (survivors self loc es)) - 1);
      [apply list_elem_of_here|apply list_elem_of_further, list_elem_of_here].
  - rewrite Hrest. unfold rep_name. rewrite Hn, Hfmt.
    now rewrite replace_placeholder.
Qed.

Lemma X5_name_is_inserted_verbatim_witness :
  exists blocks self' i conn rest,
    _add_contents {| fs_root := Dir [(lit "$NAME", File)]; fs_cwd := [] |}
                  1 (mkabs []) [] __init__ = (Ok tt, self')
    /\ _tree self' = _tree __init__ ++ concat blocks
    /\ conn ∈ [CONNECTOR_TEE; CONNECTOR_ELL]
    /\ blocks !! i
       = Some ((_root_lead __init__ ++ [] ++ conn
                  ++ lit " " ++ lit "$NAME" ++ [])
               :: rest).
Proof.
  apply (X5_name_is_inserted_verbatim
           {| fs_root := Dir [(lit "$NAME", File)]; fs_cwd := [] |}
           1 [] [(lit "$NAME", File)] [] __init__ (lit "$NAME") File
           (lit " ") []);
    reflexivity.
Defined.

Lemma lstrip_elem_of (s : str) x : x ∈ PyStr.lstrip s -> x ∈ s.
Proof.
  induction s as [|c s IH]; [easy|]. simpl.
  destruct (PyStr.isspace c); [|easy].
  intros Hx. apply list_elem_of_further. now apply IH.
Qed.

Lemma lstrip_app_placeholder (pre post : str) :
  PyStr.lstrip (pre ++ FORMAT_NAME ++ post)
  = PyStr.lstrip pre ++ FORMAT_NAME ++ post.
Proof.
  induction pre as [|c pre IH]; [reflexivity|].
  change ((c :: pre) ++ FORMAT_NAME ++ post)
    with (c :: (pre ++ FORMAT_NAME ++ post)).
  cbn [PyStr.lstrip]. now destruct (PyStr.isspace c).
Qed.

Lemma length_spaces_of_nat (n : nat) :
  length (PyStr.spaces (0 + Z.of_nat n)) = n.
Proof.
  unfold PyStr.spaces. rewrite length_replicate. lia.
Qed.

Lemma length_prefix_of self flags :
  length (prefix_of self flags)
  = (length flags * (2 + length (_dir_lead self)))%nat.
Proof.
  unfold prefix_of. induction flags as [|last flags IH]; [reflexivity|].
  cbn [flat_map length]. rewrite !length_app, IH.
  destruct last; cbn [length PREFIX_NONE PREFIX_VERT]; lia.
Qed.

(** X6. Where the directory format is [pre ++ "$NAME" ++ post] with no
    dollar sign in [pre], [_get_leads] makes the directory lead as long as
    [pre] and the root lead as long as [pre] left-trimmed, and [_add_dir]
    then descends with a prefix as long as the directory's own prefix,
    connector and [pre] together.  So, the root lead being common to all
    lines, the connectors of a directory's entries start in the very
    column where the directory's name starts in its own line. *)
Theorem X6_children_align_with_parent_name self pre post :
  _dir_format self = pre ++ FORMAT_NAME ++ post ->
  forallb (fun c => negb (c =? 36)%N) pre = true ->
  exists self',
    _get_leads self = (Ok tt, self')
    /\ length (_root_lead self') = length (PyStr.lstrip pre)
    /\ length (_dir_lead self') = length pre
    /\ forall (rec : PosixPath -> str -> M unit) item prefix count index,
         exists prefix',
           _add_dir rec item prefix count index self'
           = rec item prefix' self'
           /\ forall conn, conn ∈ [CONNECTOR_TEE; CONNECTOR_ELL] ->
                length prefix' = length (prefix ++ conn ++ pre).
Proof.
  intros Hdf Hpre. apply no_dollar_spec in Hpre.
  eexists. split; [apply get_leads_ok|].
  assert (Hdl : length (PyStr.spaces
                          (PyStr.find (_dir_format self) FORMAT_NAME))
                = length pre).
  { rewrite Hdf. unfold PyStr.find.
    rewrite find_from_placeholder by assumption.
    apply length_spaces_of_nat. }
  split; [|split].
  - destruct self; cbn [_root_lead set_dir_lead set_root_lead] in *.
    rewrite Hdf, lstrip_app_placeholder. unfold PyStr.find.
    rewrite find_from_placeholder.
    + apply length_spaces_of_nat.
    + intros Hin. apply Hpre. now apply lstrip_elem_of.
  - destruct self; cbn [_dir_lead _dir_format set_dir_lead set_root_lead]
      in *. exact Hdl.
  - intros rec item prefix count index. eexists. split.
    + unfold _add_dir, bind, get. reflexivity.
    + intros conn Hconn. rewrite !length_app.
      destruct self; cbn [_dir_lead _dir_format set_dir_lead set_root_lead]
        in *. rewrite Hdl.
      assert (length conn = 2%nat) as ->.
      { apply elem_of_cons in Hconn as [->|Hconn]; [reflexivity|].
        apply elem_of_cons in Hconn as [->|Hconn]; [reflexivity|].
        now apply elem_of_nil in Hconn. }
      destruct (index <? count - 1);
        cbn [length PREFIX_NONE PREFIX_VERT]; lia.
Qed.

Lemma X6_children_align_with_parent_name_witness :
  exists self',
    _get_leads (set_dir_format (lit "  [] $NAME") __init__) = (Ok tt, self')
    /\ length (_root_lead self') = length (PyStr.lstrip (lit "  [] "))
    /\ length (_dir_lead self') = length (lit "  [] ")
    /\ forall (rec : PosixPath -> str -> M unit) item prefix count index,
         exists prefix',
           _add_dir rec item prefix count index self'
           = rec item prefix' self'
           /\ forall conn, conn ∈ [CONNECTOR_TEE; CONNECTOR_ELL] ->
                length prefix' = length (prefix ++ conn ++ lit "  [] ").
Proof.
  apply (X6_children_align_with_parent_name
           (set_dir_format (lit "  [] $NAME") __init__) (lit "  [] ") []);
    reflexivity.
Defined.

(** *** Splitting at a character *)

Lemma split_on_not_nil c cur s : split_on c cur s <> [].
Proof.
  revert cur. induction s as [|x s IH]; intros cur; simpl; [easy|].
  destruct (x =? c)%N; [easy|apply IH].
Qed.

Lemma join_cons_cons sep (a b : str) (t : list str) :
  PyStr.join sep (a :: b :: t) = a ++ sep ++ PyStr.join sep (b :: t).
Proof. reflexivity. Qed.

Lemma join_split_on c s : forall cur,
  PyStr.join [c] (split_on c cur s) = rev cur ++ s.
Proof.
  induction s as [|x s IH]; intros cur; simpl.
  - now rewrite app_nil_r.
  - destruct (N.eqb_spec x c) as [->|Hx].
    + specialize (IH []).
      destruct (split_on c [] s) as [|b t] eqn:E;
        [now apply split_on_not_nil in E|].
      rewrite join_cons_cons, IH. reflexivity.
    + rewrite IH. simpl. now rewrite <- app_assoc.
Qed.

Lemma elem_of_List_rev {A} (x : A) (l : list A) : x ∈ rev l <-> x ∈ l.
Proof. rewrite !list_elem_of_In. symmetry. apply in_rev. Qed.

Lemma split_on_without c s : forall cur,
  c ∉ cur -> Forall (fun e => c ∉ e) (split_on c cur s).
Proof.
  induction s as [|x s IH]; intros cur Hcur; simpl.
  - constructor; [|constructor]. now rewrite elem_of_List_rev.
  - destruct (N.eqb_spec x c) as [->|Hx].
    + constructor; [now rewrite elem_of_List_rev|].
      apply IH, not_elem_of_nil.
    + apply IH. apply not_elem_of_cons. split; [congruence|assumption].
Qed.

Lemma split_on_snoc c s : forall cur,
  split_on c cur (s ++ [c]) = split_on c cur s ++ [[]].
Proof.
  induction s as [|x s IH]; intros cur; simpl.
  - now rewrite N.eqb_refl.
  - destruct (x =? c)%N; simpl; now rewrite IH.
Qed.

Lemma split_on_app_without c (a : str) s : forall cur,
  c ∉ a -> split_on c cur (a ++ s) = split_on c (rev a ++ cur) s.
Proof.
  induction a as [|x a IH]; intros cur Ha; [reflexivity|].
  apply not_elem_of_cons in Ha as [Hx Ha]. simpl.
  destruct (N.eqb_spec x c) as [->|_]; [congruence|].
  rewrite IH by assumption. now rewrite <- app_assoc.
Qed.

Lemma split_on_join c (t : list str) :
  t <> [] -> Forall (fun e => c ∉ e) t ->
  split_on c [] (PyStr.join [c] t) = t.
Proof.
  induction t as [|a t IH]; [easy|]. intros _ Ht.
  apply Forall_cons in Ht as [Ha Ht].
  destruct t as [|b t].
  - simpl PyStr.join. rewrite <- (app_nil_r a) at 1.
    rewrite split_on_app_without by assumption. simpl.
    now rewrite app_nil_r, rev_involutive.
  - rewrite join_cons_cons, split_on_app_without by assumption.
    simpl. rewrite N.eqb_refl, app_nil_r, rev_involutive.
    f_equal. now apply IH.
Qed.

(** X7. The command line splits the value of [-l] at every comma: the
    filter entries it passes hold no comma, are never none at all, and
    joined by commas give the value back. *)
Theorem X7_cli_filter_list_round_trip (args : cntree_cli.Namespace) v :
  cntree_cli.l args = Some v -> v <> [] ->
  exists fl,
    cntree_cli.LIST_FILTER args = Some fl
    /\ fl <> []
    /\ Forall (fun e => 44%N ∉ e) fl
    /\ PyStr.join [44%N] fl = v.
Proof.
  intros Hl Hv. unfold cntree_cli.LIST_FILTER. rewrite Hl.
  destruct v as [|c s]; [contradiction|].
  eexists. split; [reflexivity|]. split; [apply split_on_not_nil|].
  split; [apply split_on_without, not_elem_of_nil|].
  apply (join_split_on 44%N (c :: s) []).
Qed.

Lemma X7_cli_filter_list_round_trip_witness :
  exists fl,
    cntree_cli.LIST_FILTER
      {| cntree_cli.directory := lit "R"; cntree_cli.d := None;
         cntree_cli.f := None; cntree_cli.l := Some (lit "Foo/bar.txt,Foo") |}
    = Some fl
    /\ fl <> []
    /\ Forall (fun e => 44%N ∉ e) fl
    /\ PyStr.join [44%N] fl = lit "Foo/bar.txt,Foo".
Proof.
  apply (X7_cli_filter_list_round_trip
           {| cntree_cli.directory := lit "R"; cntree_cli.d := None;
              cntree_cli.f := None;
              cntree_cli.l := Some (lit "Foo/bar.txt,Foo") |}
           (lit "Foo/bar.txt,Foo") eq_refl).
  discriminate.
Defined.

(** X8. The command line never passes [None] as the start directory: it
    fails, with the error that names the argument, exactly when the
    positional argument is not an existing directory, and otherwise
    writes the tree that [build_tree] returns on a new instance, followed
    by one newline. *)
Theorem X8_cli_prints_tree_or_fails fs (args : cntree_cli.Namespace) :
  wf_node (fs_root fs) = true ->
  (is_dir fs (Path (cntree_cli.directory args)) = false ->
   cntree_cli.main fs args
   = Raise (OSError (ERR_NOT_A_DIR (Some (cntree_cli.directory args)))))
  /\ (is_dir fs (Path (cntree_cli.directory args)) = true ->
      exists out,
        (build_tree fs (Some (cntree_cli.directory args))
                    (cntree_cli.LIST_FILTER args) (cntree_cli.d args)
                    (cntree_cli.f args) __init__).1 = Ok out
        /\ cntree_cli.main fs args = Ok (out ++ [10%N])).
Proof.
  intros Hwf. unfold cntree_cli.main. split; intros Hd.
  - destruct (build_tree_invalid fs (Some (cntree_cli.directory args))
                (cntree_cli.LIST_FILTER args) (cntree_cli.d args)
                (cntree_cli.f args) __init__ Hd) as [self' E].
    now rewrite E.
  - destruct (build_tree_valid fs Hwf (cntree_cli.directory args)
                (cntree_cli.LIST_FILTER args) (cntree_cli.d args)
                (cntree_cli.f args) __init__ Hd) as (es & _ & E).
    cbv zeta in E. rewrite E. cbn [fst]. eauto.
Qed.

Lemma X8_cli_prints_tree_or_fails_witness :
  cntree_cli.main Examples.fs
    {| cntree_cli.directory := lit "a.txt"; cntree_cli.d := None;
       cntree_cli.f := None; cntree_cli.l := None |}
  = Raise (OSError (ERR_NOT_A_DIR (Some (lit "a.txt")))).
Proof.
  apply (X8_cli_prints_tree_or_fails Examples.fs
           {| cntree_cli.directory := lit "a.txt"; cntree_cli.d := None;
              cntree_cli.f := None; cntree_cli.l := None |} eq_refl).
  reflexivity.
Defined.

Lemma normalize_no_pardir ps : forall loc,
  pardir ∉ ps -> normalize loc ps = loc ++ ps.
Proof.
  induction ps as [|c ps IH]; intros loc Hps; simpl.
  - now rewrite app_nil_r.
  - apply not_elem_of_cons in Hps as [Hc Hps].
    destruct (decide (c = pardir)); [congruence|].
    rewrite IH by assumption. now rewrite <- app_assoc.
Qed.

(** The empty filter entry resolves to the start directory. *)
Lemma sanitize_item_empty fs loc :
  pardir ∉ loc -> sanitize_item fs (mkabs loc) (Path []) = mkabs loc.
Proof.
  intros Hloc. unfold sanitize_item, resolve, mkabs. simpl. f_equal.
  rewrite app_nil_r. now apply normalize_no_pardir.
Qed.

(** Filter lists that agree below the start directory build the same. *)
Lemma build_tree_filter_ext fs s fl1 fl2 df ff self :
  wf_node (fs_root fs) = true ->
  (is_dir fs (Path s) = true -> forall rest, rest <> [] ->
     let start := resolve fs (Path s) in
     mkabs (parts start ++ rest)
       ∈ map (fun e => sanitize_item fs start (Path e)) (default [] fl1)
     <-> mkabs (parts start ++ rest)
       ∈ map (fun e => sanitize_item fs start (Path e)) (default [] fl2)) ->
  (build_tree fs (Some s) fl1 df ff self).1
  = (build_tree fs (Some s) fl2 df ff self).1.
Proof.
  intros Hwf Hflt. destruct (is_dir fs (Path s)) eqn:Hd.
  - destruct (build_tree_valid fs Hwf s fl1 df ff self Hd)
      as (es & Hes & E1).
    destruct (build_tree_valid fs Hwf s fl2 df ff self Hd)
      as (es' & Hes' & E2).
    assert (es' = es) as -> by congruence.
    cbv zeta in E1, E2. rewrite E1, E2. cbn [fst]. do 3 f_equal.
    rewrite (configured_filter_list fs _ (default [] fl1)),
            (configured_filter_list fs _ (default [] fl2)).
    apply lines_filter_ext. now apply Hflt.
  - destruct (build_tree_invalid fs (Some s) fl1 df ff self Hd) as [? E1].
    destruct (build_tree_invalid fs (Some s) fl2 df ff self Hd) as [? E2].
    now rewrite E1, E2.
Qed.

(** X9. A comma at the end of the value of [-l] changes nothing: the
    empty entry it adds resolves to the start directory itself, which is
    never filtered.  (So [-l "Foo,"] prints what [-l "Foo"] prints, and
    [-l ","] what no [-l] prints.) *)
Theorem X9_cli_trailing_comma_is_inert fs dir df ff v :
  wf_node (fs_root fs) = true ->
  cntree_cli.main fs
    {| cntree_cli.directory := dir; cntree_cli.d := df;
       cntree_cli.f := ff; cntree_cli.l := Some (v ++ [44%N]) |}
  = cntree_cli.main fs
      {| cntree_cli.directory := dir; cntree_cli.d := df;
         cntree_cli.f := ff; cntree_cli.l := Some v |}.
Proof.
  intros Hwf. unfold cntree_cli.main. cbn [cntree_cli.directory
    cntree_cli.d cntree_cli.f].
  erewrite (build_tree_filter_ext fs dir _ _ df ff __init__ Hwf);
    [reflexivity|].
  intros Hd rest Hrest start.
  assert (Hsplit : exists extra,
            default [] (cntree_cli.LIST_FILTER
                          {| cntree_cli.directory := dir;
                             cntree_cli.d := df; cntree_cli.f := ff;
                             cntree_cli.l := Some (v ++ [44%N]) |})
            = default [] (cntree_cli.LIST_FILTER
                            {| cntree_cli.directory := dir;
                               cntree_cli.d := df; cntree_cli.f := ff;
                               cntree_cli.l := Some v |}) ++ extra
            /\ Forall (fun e => e = []) extra).
  { unfold cntree_cli.LIST_FILTER. cbn [cntree_cli.l].
    destruct v as [|c v'].
    - exists [[]; []]. split; [reflexivity|]. now repeat constructor.
    - exists [[]]. split; [|now repeat constructor].
      change ((c :: v') ++ [44%N]) with (c :: (v' ++ [44%N])).
      cbn [default].
      exact (split_on_snoc 44%N (c :: v') []). }
  destruct Hsplit as (extra & -> & Hextra).
  rewrite map_app, elem_of_app.
  split; [|now left]. intros [H|H]; [assumption|]. exfalso.
  apply list_elem_of_fmap in H as (e & He & Hin).
  rewrite Forall_forall in Hextra. rewrite (Hextra e Hin) in He.
  destruct (is_dir_resolve fs _ Hd) as (es & Hsub & _).
  fold start in Hsub.
  pose proof (subtree_no_pardir _ _ _ Hwf Hsub) as Hnp.
  change start with (mkabs (parts start)) in He at 2.
  rewrite sanitize_item_empty in He by assumption.
  apply (f_equal parts) in He. cbn [parts mkabs] in He.
  rewrite <- (app_nil_r (parts start)) in He at 2.
  apply app_inv_head in He. contradiction.
Qed.

Lemma X9_cli_trailing_comma_is_inert_witness :
  cntree_cli.main Examples.fs
    {| cntree_cli.directory := []; cntree_cli.d := None;
       cntree_cli.f := None; cntree_cli.l := Some (lit "Foo" ++ [44%N]) |}
  = cntree_cli.main Examples.fs
      {| cntree_cli.directory := []; cntree_cli.d := None;
         cntree_cli.f := None; cntree_cli.l := Some (lit "Foo") |}.
Proof.
  apply (X9_cli_trailing_comma_is_inert Examples.fs [] None None
           (lit "Foo")).
  reflexivity.
Defined.

End Extras.
